(** * PyND: neighbourhood density over a table of items

    A shallow embedding of [calcnd/neighbors.py] (class [Neighbors]) and
    the properties its specification states about it.

    Modelling frame.
    - A pandas [DataFrame] is a list of column labels and a list of rows of
      cells.  A cell is [option V]: [None] is a missing value (NaN, None,
      NaT), [Some v] a present scalar.  [V] is any type with decidable
      equality (Python's [==] on present scalars).  A row shorter than
      the header reads as missing cells.
    - [columns.get_loc] yields one integer position for a label that occurs
      once, and that is the case the model covers: a dataset maps each
      feature name to one value.  For a repeated label pandas yields a
      slice or mask; the theorems that state what a call returns assume
      the labels pairwise distinct ([NoDup]).
    - [features] is a Python list of strings, as the docstring requires.
    - Python exceptions are values of [exn]; code that may raise returns
      [result].  The text of a [ValueError] is kept structured ([message]).
    - Python integers are [Z]; list indices and loop counters are [nat];
      Python floats are binary64 floats ([PrimFloat.float]).
    - [time.monotonic()] is an ambient clock ([Clock]): the readings that
      decide whether a statement raises are kept.
    - Logging statements are left out, except for what is evaluated to
      build a log message and can raise: the column lookups and the
      division by the elapsed time. *)

From stdpp Require Import base decidable option list numbers strings sorting.
From Stdlib Require Import PrimFloat.

Set Default Proof Using "Type".
Open Scope Z_scope.

(** ** Exceptions and the error monad *)

Inductive message :=
  | Msg_features_not_in_data (missing_features : list string)
      (* "Feature(s) {} not in DataFrame data".format(missing_features) *)
  | Msg_allowed_misses_too_large
      (* "allowed_misses must be less than or equal to (length(features) - 1)" *)
  | Msg_allowed_misses_negative
      (* "allowed_misses must be >=0" *)
  | Msg_allowed_matches_too_large
      (* "allowed_matches cannot exceed length(features)" *)
  | Msg_allowed_matches_too_small
      (* "allowed_matches must be greater than 1" *)
  | Msg_arrays_length.
      (* pandas: "All arrays must be of the same length" *)

Inductive exn :=
  | ValueError (msg : message)
  | KeyError (label : string)
  | IndexError
  | ZeroDivisionError.

Inductive result (A : Type) :=
  | Ok (a : A)
  | Raise (e : exn).
Arguments Ok {A} a.
Arguments Raise {A} e.

#[global] Instance result_ret : MRet result := λ A a, Ok a.
#[global] Instance result_bind : MBind result := λ A B f m,
  match m with
  | Ok a => f a
  | Raise e => Raise e
  end.

(** [for x in r: s = body x s], stopping at the first exception. *)
Fixpoint for_ {S : Type} (r : list nat) (body : nat → S → result S) (s : S)
  : result S :=
  match r with
  | [] => Ok s
  | x :: r' => s' ← body x s; for_ r' body s'
  end.

(** Python's [range(lo, hi)]. *)
Definition range (lo hi : nat) : list nat := seq lo (hi - lo).

(** [l[i]] on a Python list: [IndexError] out of range. *)
Definition getitem {A : Type} (l : list A) (i : nat) : result A :=
  match l !! i with
  | Some x => Ok x
  | None => Raise IndexError
  end.

(** [l[i] += 1] on a Python list of integers. *)
Definition incr_item (l : list Z) (i : nat) : result (list Z) :=
  x ← getitem l i; Ok (<[i := x + 1]> l).

(** [sep.join([a, b])] *)
Definition join2 (sep a b : string) : string := a +:+ sep +:+ b.

(** The error kinds of the specification; the code raises [ValueError]
    for both and they are told apart by the message. *)
Definition UnknownFeatureError (e : exn) : Prop :=
  match e with
  | ValueError (Msg_features_not_in_data _) => True
  | _ => False
  end.

Definition InvalidThresholdError (e : exn) : Prop :=
  match e with
  | ValueError Msg_allowed_misses_too_large
  | ValueError Msg_allowed_misses_negative
  | ValueError Msg_allowed_matches_too_large
  | ValueError Msg_allowed_matches_too_small => True
  | _ => False
  end.

(** ** The clock

    [time.monotonic()] is read when [_Compute] starts (line 142,
    [start_time]) and again after the scan (line 227); the readings in
    between (lines 152, 162, 178) enter log texts only, and the division
    by their difference is guarded (lines 163-166). *)

Class Clock := {
  start_time : float;  (* the reading at line 142 *)
  end_time : float     (* the reading at line 227 *)
}.

(** [n / d] for a Python int [n] and a float [d]: [ZeroDivisionError] when
    [d == 0.0]; the quotient enters a log text only and is not kept. *)
Definition int_truediv_float (n : nat) (d : float) : result () :=
  if PrimFloat.eqb d 0%float then Raise ZeroDivisionError else Ok ().

(** ** Data frames *)

Section frames.
Context {V : Type}.

Definition cell : Type := option V.

Record DataFrame := {
  columns : list string;
  rows : list (list cell)
}.

(** [len(df.index)] *)
Definition len_index (df : DataFrame) : nat := length (rows df).

Fixpoint index_of (label : string) (cols : list string) : option nat :=
  match cols with
  | [] => None
  | c :: cols' =>
      if decide (c = label) then Some 0%nat else S <$> index_of label cols'
  end.

(** [df.columns.get_loc(label)] for a label that occurs at most once in
    the columns: its position, or [KeyError]. *)
Definition get_loc (df : DataFrame) (label : string) : result nat :=
  match index_of label (columns df) with
  | Some p => Ok p
  | None => Raise (KeyError label)
  end.

(** [df.iloc[i, c]] *)
Definition iloc (df : DataFrame) (i c : nat) : result cell :=
  match rows df !! i with
  | None => Raise IndexError
  | Some r =>
      if decide (c < length (columns df))%nat
      then Ok (default None (r !! c))
      else Raise IndexError
  end.

(** [pd.notna(x)] *)
Definition notna (x : cell) : bool :=
  match x with Some _ => true | None => false end.
End frames.
Arguments DataFrame V : clear implicits.
Arguments cell V : clear implicits.

(** ** The class [Neighbors] *)

Module Neighbors.
Section with_values.
Context {V : Type} `{Veq : EqDecision V}.
(** The order [sort_values] uses on present values of the [Code] column. *)
Context (Vle : relation V) `{Vle_dec : ∀ x y, Decision (Vle x y)}.
(** The clock [_Compute] reads. *)
Context `{clock : Clock}.

(** [elapsed_time = time.monotonic() - start_time] (line 227) *)
Definition elapsed_time : float := PrimFloat.sub end_time start_time.

(** One row of the neighbours frame, columns [target], [neighbor],
    [num_matched_features], [matched_features]. *)
Record NeighborPair := {
  target : cell V;
  neighbor : cell V;
  num_matched_features : Z;
  matched_features : string
}.

(** The attributes set by [__init__] before it calls [_Compute]. *)
Record attrs := {
  data : DataFrame V;
  features : list string;
  allowed_misses : Z;
  allowed_matches : Z
}.

(** [out_df]: a copy of the data with the column ['Neighborhood Density']. *)
Record nd_frame := {
  items : DataFrame V;
  Neighborhood_Density : list Z
}.

(** A constructed object. *)
Record instance := {
  self_attrs :> attrs;
  nd : nd_frame;
  neighbors : list NeighborPair
}.

Definition _MatchFeature (self : attrs) (i j : nat) (feature : string)
  : result bool :=
  ci ← get_loc (data self) feature;
  vi ← iloc (data self) i ci;
  if notna vi then
    cj ← get_loc (data self) feature;
    vj ← iloc (data self) j cj;
    if notna vj then
      ci' ← get_loc (data self) feature;
      vi' ← iloc (data self) i ci';
      cj' ← get_loc (data self) feature;
      vj' ← iloc (data self) j cj';
      Ok (bool_decide (vi' = vj'))
    else Ok false
  else Ok false.

(** [self.data.iloc[i, self.data.columns.get_loc("Code")]] *)
Definition code_at (self : attrs) (i : nat) : result (cell V) :=
  c ← get_loc (data self) "Code"; iloc (data self) i c.

(** Body of the loop over [k] (lines 193-206); the state is
    [(matches, matched_features)]. *)
Definition feature_step (self : attrs) (i j k : nat) (st : Z * string)
  : result (Z * string) :=
  let '(matches, matched_features) := st in
  fk ← getitem (features self) k;
  m ← _MatchFeature self i j fk;
  if m : bool then
    source ← code_at self i;
    target ← code_at self j;
    feature ← getitem (features self) k;
    let matches := matches + 1 in
    if decide (matched_features = "") then
      fk' ← getitem (features self) k;
      Ok (matches, fk')
    else
      fk' ← getitem (features self) k;
      Ok (matches, join2 ", " matched_features fk')
  else Ok (matches, matched_features).

(** The five lists the scan appends to. *)
Record scan_state := {
  nbr_target : list (cell V);
  nbr_neighbor : list (cell V);
  nbr_num_match_features : list Z;
  nbr_match_features : list string;
  nd_list : list Z
}.

(** Body of the loop over [j] (lines 185-218). *)
Definition pair_step (self : attrs) (i j : nat) (st : scan_state)
  : result scan_state :=
  if decide (i ≠ j) then
    '(matches, matched_features) ←
      for_ (range 0 (length (features self))) (feature_step self i j)
           (0%Z, ""%string);
    if bool_decide (matches >= Z.of_nat (length (features self))
                              - allowed_misses self)
       && bool_decide (matches <= allowed_matches self)
    then
      t ← code_at self i;
      n ← code_at self j;
      let nbr_target := nbr_target st ++ [t] in
      let nbr_neighbor := nbr_neighbor st ++ [n] in
      let nbr_num_match_features := nbr_num_match_features st ++ [matches] in
      let nbr_match_features := nbr_match_features st ++ [matched_features] in
      nd1 ← incr_item (nd_list st) i;
      nd2 ← incr_item nd1 j;
      Ok {| nbr_target := nbr_target;
            nbr_neighbor := nbr_neighbor;
            nbr_num_match_features := nbr_num_match_features;
            nbr_match_features := nbr_match_features;
            nd_list := nd2 |}
    else Ok st
  else Ok st.

(** Body of the loop over [i] (lines 154-218); the first lookup is the
    one made for the progress message. *)
Definition item_step (self : attrs) (i : nat) (st : scan_state)
  : result scan_state :=
  _ ← code_at self i;
  for_ (range i (len_index (data self))) (pair_step self i) st.

(** [pd.DataFrame(data_dict)] for the four columns of the neighbours frame. *)
Fixpoint frame_rows (ts ns : list (cell V)) (cs : list Z) (fs : list string)
  : list NeighborPair :=
  match ts, ns, cs, fs with
  | t :: ts', n :: ns', c :: cs', f :: fs' =>
      {| target := t; neighbor := n;
         num_matched_features := c; matched_features := f |}
      :: frame_rows ts' ns' cs' fs'
  | _, _, _, _ => []
  end.

Definition DataFrame_of_dict (ts ns : list (cell V)) (cs : list Z)
    (fs : list string) : result (list NeighborPair) :=
  if decide (length ns = length ts ∧ length cs = length ts
             ∧ length fs = length ts)
  then Ok (frame_rows ts ns cs fs)
  else Raise (ValueError Msg_arrays_length).

Definition _Compute (self : attrs) : result (nd_frame * list NeighborPair) :=
  let out_df := data self in
  let nd := replicate (len_index (data self)) 0 in
  st ← for_ (range 0 (len_index (data self))) (item_step self)
        {| nbr_target := []; nbr_neighbor := [];
           nbr_num_match_features := []; nbr_match_features := [];
           nd_list := nd |};
  neighbors ← DataFrame_of_dict (nbr_target st) (nbr_neighbor st)
                (nbr_num_match_features st) (nbr_match_features st);
  _ ← int_truediv_float (len_index (data self)) elapsed_time;
  out_df' ← (if decide (length (nd_list st) = len_index out_df)
             then Ok {| items := out_df; Neighborhood_Density := nd_list st |}
             else Raise (ValueError Msg_arrays_length));
  Ok (out_df', neighbors).

Definition __init__ (data : DataFrame V) (features : list string)
    (allowed_misses : Z) (allowed_matches : option Z) : result instance :=
  let missing_features :=
    filter (λ x, x ∉ columns data) features in
  _ ← (if decide (missing_features ≠ [])
       then Raise (ValueError (Msg_features_not_in_data missing_features))
       else Ok ());
  _ ← (if decide (allowed_misses > Z.of_nat (length features) - 1)
       then Raise (ValueError Msg_allowed_misses_too_large)
       else if decide (allowed_misses < 0)
       then Raise (ValueError Msg_allowed_misses_negative)
       else Ok ());
  allowed_matches ←
    match allowed_matches with
    | None => Ok (Z.of_nat (length features))
    | Some m =>
        if decide (m > Z.of_nat (length features))
        then Raise (ValueError Msg_allowed_matches_too_large)
        else if decide (m < 1)
        then Raise (ValueError Msg_allowed_matches_too_small)
        else Ok m
    end;
  let self := {| data := data; features := features;
                 allowed_misses := allowed_misses;
                 allowed_matches := allowed_matches |} in
  '(nd, neighbors) ← _Compute self;
  Ok {| self_attrs := self; nd := nd; neighbors := neighbors |}.

(** *** Mirroring and the accessors *)

(** Order of cells under [sort_values]: missing values come last
    ([na_position='last']). *)
Definition cell_le (x y : cell V) : Prop :=
  match x, y with
  | Some a, Some b => Vle a b
  | _, None => True
  | None, Some _ => False
  end.

#[global] Instance cell_le_dec x y : Decision (cell_le x y).
Proof using Vle_dec. destruct x, y; simpl; apply _. Defined.

(** Lexicographic order on the key [(target, neighbor)]. *)
Definition by_target_neighbor (r1 r2 : NeighborPair) : Prop :=
  cell_le (target r1) (target r2)
  ∧ (cell_le (target r2) (target r1)
     → cell_le (neighbor r1) (neighbor r2)).

#[global] Instance by_target_neighbor_dec r1 r2 :
  Decision (by_target_neighbor r1 r2).
Proof using Vle_dec. unfold by_target_neighbor. apply _. Defined.

(** [df.sort_values(by=['target', 'neighbor'])]: a stable sort. *)
Definition sort_values_target_neighbor (df : list NeighborPair)
  : list NeighborPair :=
  merge_sort by_target_neighbor df.

(** [fd.loc[:, 'target'] = col] *)
Definition set_target (fd : list NeighborPair) (col : list (cell V))
  : list NeighborPair :=
  zip_with (λ r c,
    {| target := c; neighbor := neighbor r;
       num_matched_features := num_matched_features r;
       matched_features := matched_features r |}) fd col.

(** [fd.loc[:, 'neighbor'] = col] *)
Definition set_neighbor (fd : list NeighborPair) (col : list (cell V))
  : list NeighborPair :=
  zip_with (λ r c,
    {| target := target r; neighbor := c;
       num_matched_features := num_matched_features r;
       matched_features := matched_features r |}) fd col.

Definition _MirrorNeighbors (self : instance) : list NeighborPair :=
  let fd := neighbors self in
  let fd := set_target fd (neighbor <$> neighbors self) in
  let fd := set_neighbor fd (target <$> neighbors self) in
  let result := neighbors self ++ fd in
  sort_values_target_neighbor result.

(** The function under [@property]: [Neighbors(self, mirror_neighbors=True)]. *)
Definition Neighbors (self : instance) (mirror_neighbors : bool)
  : list NeighborPair :=
  if mirror_neighbors then _MirrorNeighbors self else neighbors self.

(** Reading the attribute [obj.Neighbors]: a property getter is called
    with [self] alone, so [mirror_neighbors] takes its default [True]. *)
Definition Neighbors_getattr (self : instance) : list NeighborPair :=
  Neighbors self true.

(** The function under [@property]: [ND(self)]; reading [obj.ND]. *)
Definition ND (self : instance) : nd_frame := nd self.

(** *** Declarative reading of the scan

    The definitions below restate, in the words of the specification,
    what the loops above are meant to compute; the theorems relate the
    two. *)

(** The value item [i] has for column [label]; missing when the frame
    holds none. *)
Definition cell_of (df : DataFrame V) (i : nat) (label : string) : cell V :=
  match index_of label (columns df), rows df !! i with
  | Some p, Some r => default None (r !! p)
  | _, _ => None
  end.

(** Both items have a present value for [label] and the values are equal. *)
Definition agree (df : DataFrame V) (i j : nat) (label : string) : Prop :=
  ∃ v, cell_of df i label = Some v ∧ cell_of df j label = Some v.

#[global] Instance agree_dec df i j label : Decision (agree df i j label).
Proof using Veq.
  unfold agree.
  destruct (cell_of df i label) as [a|], (cell_of df j label) as [b|].
  - destruct (decide (a = b)) as [->|Hne].
    + left. eauto.
    + right. intros (v & ? & ?). congruence.
  - right. intros (v & ? & ?). congruence.
  - right. intros (v & ? & ?). congruence.
  - right. intros (v & ? & ?). congruence.
Defined.

(** The features on which the pair matches, in FeatureSet order. *)
Definition matched_names (self : attrs) (i j : nat) : list string :=
  filter (agree (data self) i j) (features self).

(** The per-feature match count of the pair. *)
Definition matches (self : attrs) (i j : nat) : Z :=
  Z.of_nat (length (matched_names self i j)).

(** The text the scan builds from the matched names. *)
Definition join_step (acc f : string) : string :=
  if decide (acc = "") then f else join2 ", " acc f.
Definition join_names (acc : string) (names : list string) : string :=
  foldl join_step acc names.

(** The acceptance rule. *)
Definition accepted (self : attrs) (p : nat * nat) : Prop :=
  matches self p.1 p.2 >= Z.of_nat (length (features self)) - allowed_misses self
  ∧ matches self p.1 p.2 <= allowed_matches self.

#[global] Instance accepted_dec self p : Decision (accepted self p).
Proof using Veq. unfold accepted. apply _. Defined.

(** The NeighborPair of an accepted pair of indices. *)
Definition pair_row (self : attrs) (p : nat * nat) : NeighborPair :=
  {| target := cell_of (data self) p.1 "Code";
     neighbor := cell_of (data self) p.2 "Code";
     num_matched_features := matches self p.1 p.2;
     matched_features := join_names "" (matched_names self p.1 p.2) |}.

(** All pairs [(i, j)] with [i < j < n], [i] ascending, then [j] ascending. *)
Definition index_pairs (n : nat) : list (nat * nat) :=
  i ← seq 0 n; (λ j, (i, j)) <$> seq (S i) (n - S i).

Definition accepted_pairs (self : attrs) : list (nat * nat) :=
  filter (accepted self) (index_pairs (len_index (data self))).

(** Every requested feature name is a column of the dataset. *)
Definition features_known (data : DataFrame V) (features : list string)
  : Prop :=
  ∀ f, f ∈ features → f ∈ columns data.

(** The thresholds are in range for [k = length features]. *)
Definition thresholds_valid (features : list string) (allowed_misses : Z)
    (allowed_matches : option Z) : Prop :=
  0 <= allowed_misses <= Z.of_nat (length features) - 1
  ∧ match allowed_matches with
    | None => True
    | Some m => 1 <= m <= Z.of_nat (length features)
    end.

#[global] Instance features_known_dec (data : DataFrame V) features :
  Decision (features_known data features).
Proof.
  refine (cast_if (decide (Forall (λ f, f ∈ columns data) features)));
    unfold features_known; by rewrite Forall_forall in *.
Defined.

#[global] Instance thresholds_valid_dec features am amm :
  Decision (thresholds_valid features am amm).
Proof. unfold thresholds_valid. destruct amm; apply _. Defined.

(** The attributes [__init__] sets when validation passes. *)
Definition validated_attrs (data : DataFrame V) (features : list string)
    (allowed_misses : Z) (allowed_matches : option Z) : attrs :=
  {| data := data; features := features;
     allowed_misses := allowed_misses;
     allowed_matches :=
       default (Z.of_nat (length features)) allowed_matches |}.

(** [nd[i] += 1] as a total function. *)
Definition bump1 (nd : list Z) (i : nat) : list Z :=
  <[i := default 0 (nd !! i) + 1]> nd.

(** The density table after one more accepted pair. *)
Definition bump (nd : list Z) (p : nat * nat) : list Z :=
  bump1 (bump1 nd p.1) p.2.

(** The scan state after pair [p] is accepted. *)
Definition emit (self : attrs) (st : scan_state) (p : nat * nat) : scan_state :=
  {| nbr_target := nbr_target st ++ [target (pair_row self p)];
     nbr_neighbor := nbr_neighbor st ++ [neighbor (pair_row self p)];
     nbr_num_match_features :=
       nbr_num_match_features st ++ [num_matched_features (pair_row self p)];
     nbr_match_features :=
       nbr_match_features st ++ [matched_features (pair_row self p)];
     nd_list := bump (nd_list st) p |}.

(** The scan state after pair [p] is considered. *)
Definition scan_step (self : attrs) (st : scan_state) (p : nat * nat)
  : scan_state :=
  if decide (accepted self p) then emit self st p else st.

(** [i] ascending, then [j] ascending. *)
Definition pair_lt (p q : nat * nat) : Prop :=
  (p.1 < q.1)%nat ∨ (p.1 = q.1 ∧ (p.2 < q.2)%nat).

(** The member of pair [p] that is not [x]. *)
Definition other_member (x : nat) (p : nat * nat) : nat :=
  if decide (p.1 = x) then p.2 else p.1.

(** The number of pairs of [ps] that item [x] is a member of. *)
Definition member_count (ps : list (nat * nat)) (x : nat) : Z :=
  Z.of_nat (length (filter (λ p, p.1 = x ∨ p.2 = x) ps)).

(** Python's [sum] over a list of integers. *)
Definition sum (l : list Z) : Z := foldr Z.add 0 l.

(** Modelled from the spec: the deduplication of a mirrored list, which
    the repository does not implement: keep the rows whose target is not
    above their neighbor under the fixed ordering. *)
Definition deduplicate (df : list NeighborPair) : list NeighborPair :=
  filter (λ r, cell_le (target r) (neighbor r)) df.

(** The same row with target and neighbor exchanged. *)
Definition swap_row (r : NeighborPair) : NeighborPair :=
  {| target := neighbor r; neighbor := target r;
     num_matched_features := num_matched_features r;
     matched_features := matched_features r |}.

(** Two rows stand for the same unordered pair, all other fields equal. *)
Definition same_unordered (r1 r2 : NeighborPair) : Prop :=
  r1 = r2 ∨ r1 = swap_row r2.

(** *** Further declarative definitions *)

(** The clock moved between its two readings: the elapsed time is not
    zero. *)
Definition clock_advanced : Prop := PrimFloat.eqb elapsed_time 0%float = false.

#[global] Instance clock_advanced_dec : Decision clock_advanced.
Proof. unfold clock_advanced. apply _. Defined.

(** The object a construction returns when validation passes and the scan
    completes. *)
Definition constructed (data : DataFrame V) (features : list string)
    (allowed_misses : Z) (allowed_matches : option Z) : instance :=
  let self := validated_attrs data features allowed_misses allowed_matches in
  {| self_attrs := self;
     nd := {| items := data;
              Neighborhood_Density :=
                member_count (accepted_pairs self)
                <$> seq 0 (len_index data) |};
     neighbors := pair_row self <$> accepted_pairs self |}.

(** Feature [label] has a missing value on item [i] or on item [j]. *)
Definition missing_on (df : DataFrame V) (i j : nat) (label : string) : Prop :=
  cell_of df i label = None ∨ cell_of df j label = None.

#[global] Instance missing_on_dec df i j label : Decision (missing_on df i j label).
Proof using Veq. unfold missing_on. apply _. Defined.


(** The rows of a neighbours frame whose target is [code]. *)
Definition rows_of_target (code : cell V) (df : list NeighborPair)
  : list NeighborPair :=
  filter (λ r, target r = code) df.

End with_values.

Arguments NeighborPair V : clear implicits.
Arguments attrs V : clear implicits.
Arguments nd_frame V : clear implicits.
Arguments instance V : clear implicits.
Arguments scan_state V : clear implicits.

(** *** The progress log of the scan

    The loop over [i] also writes log records (lines 152-181).  Their
    texts hold clock readings; the model keeps the integers they are
    computed from: which record is written for which item, and the item
    counts that the completion fraction, the rate and the remaining time
    are computed from. *)

Inductive log_record :=
  | Info_starting_word (word total : nat)
      (* logger.info('starting word {} of {}, ...'.format(i+1, len, ...)) *)
  | Info_progress (done_items : nat) (since_last remaining : Z)
      (* logger.info(msg2): complete = i/len, rate = (i - it_start_iter)/et,
         etc = (len - i) * 1/rate *)
  | Debug_etc (done_items : nat)
      (* logger.debug("i: %s etc: %s" % (i, etc)) *)
  | Debug_etc_formatted
      (* logger.debug("self._FormatHMS(etc): %s" % self._FormatHMS(etc)) *)
  | Debug_starting_word (word total : nat).
      (* logger.debug(msg) *)

(** One iteration of the loop over [i], lines 155-181; the state is
    [(it_start_iter, records written so far)]. *)
Definition progress_step (total : nat) (st : nat * list log_record) (i : nat)
  : nat * list log_record :=
  let '(it_start_iter, log) := st in
  if decide (i = 0%nat) then
    (it_start_iter, log ++ [Info_starting_word (i + 1) total])
  else if decide (((i + 1) mod 10)%nat = 0%nat) then
    (i, log ++ [Debug_etc i; Debug_etc_formatted;
                Info_progress i (Z.of_nat i - Z.of_nat it_start_iter)
                  (Z.of_nat total - Z.of_nat i);
                Info_starting_word (i + 1) total])
  else
    (it_start_iter, log ++ [Debug_starting_word (i + 1) total]).

(** The records of a scan over [total] items that completes. *)
Definition progress_log (total : nat) : list log_record :=
  (foldl (progress_step total) (0%nat, []) (range 0 total)).2.

(** The progress reports among the records. *)
Definition is_progress (r : log_record) : Prop :=
  match r with Info_progress _ _ _ => True | _ => False end.

#[global] Instance is_progress_dec r : Decision (is_progress r).
Proof. destruct r; simpl; apply _. Defined.

(** The progress report for the [q]-th full ten of items, written at
    [i = 10 q + 9]: the rate is computed from the 9 items since the start
    for the first report and from the 10 items since the previous report
    for the later ones. *)
Definition report_of_ten (total q : nat) : log_record :=
  Info_progress (10 * q + 9)
    (if decide (q = 0%nat) then 9 else 10)
    (Z.of_nat total - Z.of_nat (10 * q + 9)).

(** *** The scenarios of the specification *)

Definition row (code : string) (f1 f2 f3 : option string) : list (cell string) :=
  [Some code; f1; f2; f3].

Definition scenario : DataFrame string :=
  {| columns := ["Code"; "F1"; "F2"; "F3"];
     rows := [ row "A" (Some "1") (Some "1") (Some "1");
               row "B" (Some "1") (Some "1") (Some "1");
               row "C" (Some "1") (Some "1") (Some "2") ] |}.

Definition scenario_missing : DataFrame string :=
  {| columns := ["Code"; "F1"; "F2"; "F3"];
     rows := [ row "A" (Some "1") (Some "1") (Some "1");
               row "D" (Some "1") (Some "1") None ] |}.

(** Code-point order on strings. *)
Definition string_le (a b : string) : Prop := String.leb a b = true.
#[global] Instance string_le_dec a b : Decision (string_le a b).
Proof. unfold string_le. apply _. Defined.
#[global] Instance string_le_total : Total string_le := String.leb_total.

Definition F123 : list string := ["F1"; "F2"; "F3"].

(** The object built from the first scenario under the defaults. *)
Definition scenario_obj : instance string :=
  {| self_attrs := validated_attrs scenario F123 0 None;
     nd := {| items := scenario; Neighborhood_Density := [1; 1; 0] |};
     neighbors :=
       [ {| target := Some "A"; neighbor := Some "B";
            num_matched_features := 3;
            matched_features := "F1, F2, F3" |} ] |}.

(** A frame with two equal rows and no [Code] column. *)
Definition no_code_frame : DataFrame string :=
  {| columns := ["F1"]; rows := [ [Some "1"]; [Some "1"] ] |}.

(** A frame whose only feature column has the empty string as its label. *)
Definition empty_label : string := "".
Definition empty_label_frame : DataFrame string :=
  {| columns := ["Code"; empty_label];
     rows := [ [Some "A"; Some "1"]; [Some "B"; Some "1"] ] |}.
Definition empty_label_obj : instance string :=
  {| self_attrs := validated_attrs empty_label_frame [empty_label] 0 None;
     nd := {| items := empty_label_frame; Neighborhood_Density := [1; 1] |};
     neighbors :=
       [ {| target := Some "A"; neighbor := Some "B";
            num_matched_features := 1;
            matched_features := empty_label |} ] |}.

(** The clock of the scenarios: half a second passes during the scan. *)
Definition ticking_clock : Clock :=
  {| start_time := 100%float; end_time := 100.5%float |}.

(** A clock that does not advance during the scan: both readings are the
    same, as with a clock of coarse resolution on a small frame. *)
Definition stalled_clock : Clock :=
  {| start_time := 100%float; end_time := 100%float |}.


(** The first item of the first scenario alone. *)
Definition single_item : DataFrame string :=
  {| columns := ["Code"; "F1"; "F2"; "F3"];
     rows := [ row "A" (Some "1") (Some "1") (Some "1") ] |}.

(** The first two items of the first scenario: alike on every feature. *)
Definition scenario_alike : DataFrame string :=
  {| columns := ["Code"; "F1"; "F2"; "F3"];
     rows := [ row "A" (Some "1") (Some "1") (Some "1");
               row "B" (Some "1") (Some "1") (Some "1") ] |}.

(** The first scenario with its columns in another order and one more
    column. *)
Definition scenario_extra : DataFrame string :=
  {| columns := ["Gloss"; "F3"; "Code"; "F1"; "F2"];
     rows := [ [Some "x"; Some "1"; Some "A"; Some "1"; Some "1"];
               [None; Some "1"; Some "B"; Some "1"; Some "1"];
               [Some "z"; Some "2"; Some "C"; Some "1"; Some "1"] ] |}.

(** ** Properties *)

(** *** The error monad and the loops *)

Lemma bind_Ok {A B} (a : A) (f : A → result B) : (Ok a ≫= f) = f a.
Proof. reflexivity. Qed.

(** A loop whose every iteration succeeds is a left fold. *)
Lemma for_foldl {S} (r : list nat) (body : nat → S → result S)
    (step : S → nat → S) (Inv : S → Prop) (s : S) :
  (∀ x s, x ∈ r → Inv s → body x s = Ok (step s x) ∧ Inv (step s x)) →
  Inv s →
  for_ r body s = Ok (foldl step s r) ∧ Inv (foldl step s r).
Proof.
  revert s. induction r as [|x r IH]; intros s Hbody Hs; simpl; [done|].
  destruct (Hbody x s) as [-> Hs']; [left | done |].
  rewrite bind_Ok. apply IH; [|done].
  intros y s' Hy. apply Hbody. by right.
Qed.

Lemma getitem_lookup {A} (l : list A) (i : nat) (x : A) :
  l !! i = Some x → getitem l i = Ok x.
Proof. unfold getitem. by intros ->. Qed.

Lemma incr_item_ok (l : list Z) (i : nat) :
  (i < length l)%nat → incr_item l i = Ok (bump1 l i).
Proof.
  intros Hi. unfold incr_item, bump1.
  destruct (lookup_lt_is_Some_2 l i Hi) as [x Hx].
  by rewrite (getitem_lookup _ _ _ Hx), bind_Ok, Hx.
Qed.

(** *** Column and cell lookups *)

Section lookups.
Context {V : Type}.
Implicit Types (df : DataFrame V) (label : string).

Lemma index_of_Some label cols p :
  index_of label cols = Some p → (p < length cols)%nat ∧ cols !! p = Some label.
Proof.
  revert p. induction cols as [|c cols IH]; intros p; simpl; [done|].
  case_decide as Hc.
  - intros [= <-]. split; [lia | by subst].
  - destruct (index_of label cols) as [q|]; simpl; [|done].
    intros [= <-]. destruct (IH q eq_refl). split; [lia | done].
Qed.

Lemma index_of_elem label cols :
  label ∈ cols → ∃ p, index_of label cols = Some p.
Proof.
  induction 1 as [c cols|c d cols _ [p Hp]]; simpl.
  - rewrite decide_True by done. eauto.
  - case_decide; [eauto|]. rewrite Hp. simpl. eauto.
Qed.

Lemma index_of_None label cols :
  label ∉ cols → index_of label cols = None.
Proof.
  intros Hn. destruct (index_of label cols) as [p|] eqn:Hp; [|done].
  destruct (index_of_Some _ _ _ Hp) as [_ Hl].
  exfalso. apply Hn. by eapply list_elem_of_lookup_2.
Qed.

Lemma get_loc_absent df label :
  label ∉ columns df → get_loc df label = Raise (KeyError label).
Proof. intros Hn. unfold get_loc. by rewrite index_of_None. Qed.

(** A lookup of a column the frame has, at a row the frame has, yields
    the cell. *)
Lemma lookup_cell df label :
  label ∈ columns df →
  ∃ p, get_loc df label = Ok p
       ∧ ∀ i, (i < len_index df)%nat → iloc df i p = Ok (cell_of df i label).
Proof.
  intros Hin. destruct (index_of_elem _ _ Hin) as [p Hp].
  exists p. unfold get_loc, iloc, cell_of. rewrite Hp. split; [done|].
  intros i Hi. destruct (index_of_Some _ _ _ Hp) as [Hlt _].
  destruct (lookup_lt_is_Some_2 (rows df) i Hi) as [r ->].
  by rewrite decide_True.
Qed.
End lookups.

(** *** The enumeration of index pairs *)

Lemma elem_of_index_pairs n i j :
  (i, j) ∈ index_pairs n ↔ (i < j < n)%nat.
Proof.
  unfold index_pairs. rewrite list_elem_of_bind. split.
  - intros (i' & Hj & Hi). apply list_elem_of_fmap in Hj as (j' & [= -> ->] & Hj).
    apply elem_of_seq in Hj. lia.
  - intros Hij. exists i. split.
    + apply list_elem_of_fmap. exists j. split; [done|]. apply elem_of_seq. lia.
    + apply elem_of_seq. lia.
Qed.

Lemma NoDup_index_pairs n : NoDup (index_pairs n).
Proof.
  unfold index_pairs. apply NoDup_bind.
  - intros i1 i2 [a b] _ _ H1 H2.
    apply list_elem_of_fmap in H1 as (? & [= -> ->] & _).
    apply list_elem_of_fmap in H2 as (? & [= -> _] & _). done.
  - intros i _. apply NoDup_fmap_2; [|apply NoDup_seq].
    intros ?? [=]. done.
  - apply NoDup_seq.
Qed.

Lemma StronglySorted_lt_seq a b : StronglySorted lt (seq a b).
Proof.
  revert a. induction b as [|b IH]; intros a; simpl; constructor; [apply IH|].
  apply Forall_forall. intros x Hx. apply elem_of_seq in Hx. lia.
Qed.

Lemma StronglySorted_index_pairs n : StronglySorted pair_lt (index_pairs n).
Proof.
  unfold index_pairs.
  generalize (StronglySorted_lt_seq 0 n). generalize (seq 0 n) as l.
  induction l as [|i l IH]; intros Hl; [constructor|].
  apply StronglySorted_cons in Hl as [Hi Hl].
  rewrite bind_cons. apply StronglySorted_app. split_and!.
  - intros [a b] [c d] Hp Hq.
    apply list_elem_of_fmap in Hp as (? & [= -> ->] & _).
    apply list_elem_of_bind in Hq as (i' & Hq & Hi').
    apply list_elem_of_fmap in Hq as (? & [= -> ->] & _).
    left. simpl. rewrite Forall_forall in Hi. by apply Hi.
  - apply (StronglySorted_fmap _ lt); [|apply StronglySorted_lt_seq].
    intros x y Hxy. right. done.
  - by apply IH.
Qed.

(** *** The density table *)

Lemma foldl_bump_length qs : ∀ nd, length (foldl bump nd qs) = length nd.
Proof.
  induction qs as [|q qs IH]; intros nd; [done|].
  simpl. rewrite IH. unfold bump, bump1. by rewrite !length_insert.
Qed.

Lemma sum_insert (l : list Z) : ∀ i x v,
  l !! i = Some x → sum (<[i := v]> l) = sum l - x + v.
Proof.
  induction l as [|a l IH]; intros [|i] x v; simpl; try done.
  - intros [= ->]. lia.
  - intros Hi. rewrite (IH i x v Hi). lia.
Qed.

Lemma sum_bump1 (nd : list Z) i :
  (i < length nd)%nat → sum (bump1 nd i) = sum nd + 1.
Proof.
  intros Hi. destruct (lookup_lt_is_Some_2 nd i Hi) as [x Hx].
  unfold bump1. rewrite (sum_insert nd i x _ Hx), Hx. simpl. lia.
Qed.

Lemma sum_replicate n : sum (replicate n 0) = 0.
Proof. induction n as [|n IH]; simpl; [done|]. by rewrite IH. Qed.

Lemma bump1_length nd i : length (bump1 nd i) = length nd.
Proof. unfold bump1. apply length_insert. Qed.

Lemma sum_foldl_bump qs : ∀ nd,
  Forall (λ p, (p.1 < length nd)%nat ∧ (p.2 < length nd)%nat) qs →
  sum (foldl bump nd qs) = sum nd + 2 * Z.of_nat (length qs).
Proof.
  induction qs as [|q qs IH]; intros nd Hqs; simpl; [lia|].
  apply Forall_cons in Hqs as [[H1 H2] Hqs].
  rewrite IH.
  - unfold bump. rewrite !sum_bump1; rewrite ?bump1_length; lia.
  - unfold bump. by rewrite !bump1_length.
Qed.

Lemma bump1_lookup nd i x v :
  nd !! x = Some v →
  bump1 nd i !! x = Some (if decide (i = x) then v + 1 else v).
Proof.
  intros Hx. unfold bump1. rewrite list_lookup_insert.
  pose proof (lookup_lt_Some _ _ _ Hx).
  destruct (decide (i = x)) as [->|Hne].
  - rewrite decide_True by done. by rewrite Hx.
  - rewrite decide_False by (by intros [? _]). done.
Qed.

Lemma member_count_cons p ps x :
  member_count (p :: ps) x
  = (if decide (p.1 = x ∨ p.2 = x) then 1 else 0) + member_count ps x.
Proof.
  unfold member_count. rewrite filter_cons.
  case_decide; simpl; lia.
Qed.

Lemma lookup_foldl_bump qs : ∀ nd x v,
  Forall (λ p, p.1 ≠ p.2) qs →
  nd !! x = Some v →
  foldl bump nd qs !! x = Some (v + member_count qs x).
Proof.
  induction qs as [|[i j] qs IH]; intros nd x v Hqs Hx.
  - simpl. rewrite Hx. f_equal. unfold member_count. simpl. lia.
  - apply Forall_cons in Hqs as [Hij Hqs]. simpl in Hij.
    cbn [foldl]. rewrite member_count_cons.
    erewrite IH; [|done|].
    2:{ unfold bump. apply bump1_lookup, bump1_lookup, Hx. }
    f_equal. simpl. repeat case_decide; try lia; naive_solver.
Qed.

(** The density table is, item by item, the number of accepted pairs the
    item is a member of. *)
Lemma foldl_bump_replicate n qs :
  Forall (λ p, p.1 ≠ p.2) qs →
  foldl bump (replicate n 0) qs = (member_count qs) <$> seq 0 n.
Proof.
  intros Hqs. apply list_eq. intros x.
  rewrite list_lookup_fmap.
  destruct (decide (x < n)%nat) as [Hx|Hx].
  - rewrite lookup_seq_lt by done.
    erewrite lookup_foldl_bump; [|done|by apply lookup_replicate_2].
    simpl. f_equal; lia.
  - rewrite lookup_seq_ge by lia. simpl.
    apply lookup_ge_None. rewrite foldl_bump_length, length_replicate. lia.
Qed.

Lemma length_filter_filter {A} (P Q : A → Prop)
    `{∀ x, Decision (P x)} `{∀ x, Decision (Q x)} (l : list A) :
  (length (filter P (filter Q l)) ≤ length (filter P l))%nat.
Proof.
  induction l as [|a l IH]; [done|].
  rewrite !filter_cons. destruct (decide (Q a)), (decide (P a));
    rewrite ?filter_cons, ?decide_True, ?decide_False by done; simpl; lia.
Qed.

(** An item is a member of at most [n - 1] of the index pairs. *)
Lemma member_count_index_pairs n x :
  (x < n)%nat → member_count (index_pairs n) x <= Z.of_nat n - 1.
Proof.
  intros Hx. unfold member_count.
  set (ps := filter (λ p, p.1 = x ∨ p.2 = x) (index_pairs n)).
  assert (NoDup (x :: (other_member x <$> ps))) as Hnd.
  { constructor.
    - intros Hin. apply list_elem_of_fmap in Hin as ([i j] & Ho & Hp).
      apply list_elem_of_filter in Hp as [Hc Hp].
      apply elem_of_index_pairs in Hp. unfold other_member in Ho.
      simpl in *. case_decide; lia.
    - apply NoDup_fmap_2_strong; [|apply NoDup_filter, NoDup_index_pairs].
      intros [i j] [k l] Hp Hq Ho.
      apply list_elem_of_filter in Hp as [Hc Hp].
      apply list_elem_of_filter in Hq as [Hd Hq].
      apply elem_of_index_pairs in Hp. apply elem_of_index_pairs in Hq.
      unfold other_member in Ho. simpl in *.
      repeat case_decide; f_equal; lia. }
  assert (length (x :: (other_member x <$> ps)) ≤ length (seq 0 n))%nat as Hle.
  { apply submseteq_length, NoDup_submseteq; [done|].
    intros y Hy. apply elem_of_seq.
    apply elem_of_cons in Hy as [->|Hy]; [lia|].
    apply list_elem_of_fmap in Hy as ([i j] & -> & Hp).
    apply list_elem_of_filter in Hp as [_ Hp].
    apply elem_of_index_pairs in Hp. unfold other_member. simpl.
    case_decide; lia. }
  simpl in Hle. rewrite length_fmap, length_seq in Hle. lia.
Qed.

(** *** The feature matcher and the loop over the features *)

Section scan.
Context {V : Type} `{Veq : EqDecision V} `{clock : Clock}.
Implicit Types (self : attrs V) (st : scan_state V).

Lemma code_at_ok self i :
  "Code" ∈ columns (data self) → (i < len_index (data self))%nat →
  code_at self i = Ok (cell_of (data self) i "Code").
Proof.
  intros Hc Hi. destruct (lookup_cell _ _ Hc) as (p & Hp & Hcell).
  unfold code_at. rewrite Hp, bind_Ok. by apply Hcell.
Qed.

Lemma code_at_absent self i :
  "Code" ∉ columns (data self) → code_at self i = Raise (KeyError "Code").
Proof. intros Hc. unfold code_at. by rewrite get_loc_absent. Qed.

Lemma _MatchFeature_ok self i j feature :
  feature ∈ columns (data self) →
  (i < len_index (data self))%nat → (j < len_index (data self))%nat →
  _MatchFeature self i j feature
  = Ok (bool_decide (agree (data self) i j feature)).
Proof.
  intros Hf Hi Hj. destruct (lookup_cell _ _ Hf) as (p & Hp & Hcell).
  unfold _MatchFeature, mbind, result_bind.
  rewrite Hp, (Hcell i Hi), (Hcell j Hj).
  destruct (cell_of (data self) i feature) as [a|] eqn:Ha; simpl.
  - destruct (cell_of (data self) j feature) as [b|] eqn:Hb; simpl.
    + f_equal. apply bool_decide_ext. unfold agree. rewrite Ha, Hb. split.
      * intros [= ->]. eauto.
      * intros (v & [= ->] & [= ->]). done.
    + f_equal. symmetry. apply bool_decide_eq_false.
      unfold agree. rewrite Hb. intros (v & _ & ?). done.
  - f_equal. symmetry. apply bool_decide_eq_false.
    unfold agree. rewrite Ha. intros (v & ? & _). done.
Qed.

Section validated.
Variable self : attrs V.
Hypothesis Hcode : "Code" ∈ columns (data self).
Hypothesis Hfeat : ∀ f, f ∈ features self → f ∈ columns (data self).
Let n := len_index (data self).

Lemma feature_step_ok i j k f m mf :
  (i < n)%nat → (j < n)%nat → features self !! k = Some f →
  feature_step self i j k (m, mf)
  = Ok (if decide (agree (data self) i j f)
        then (m + 1, join_step mf f) else (m, mf)).
Proof using Hcode Hfeat.
  intros Hi Hj Hk. unfold feature_step.
  rewrite !(getitem_lookup _ _ _ Hk), bind_Ok.
  rewrite _MatchFeature_ok, bind_Ok;
    [|by eapply Hfeat, list_elem_of_lookup_2|done..].
  destruct (decide (agree (data self) i j f)) as [Ha|Ha].
  - rewrite bool_decide_eq_true_2 by done.
    rewrite !code_at_ok, !bind_Ok by done.
    unfold join_step. by case_decide.
  - by rewrite bool_decide_eq_false_2.
Qed.

Lemma feature_loop_from i j suf : ∀ pre m mf,
  (i < n)%nat → (j < n)%nat → features self = pre ++ suf →
  for_ (seq (length pre) (length suf)) (feature_step self i j) (m, mf)
  = Ok (m + Z.of_nat (length (filter (agree (data self) i j) suf)),
        join_names mf (filter (agree (data self) i j) suf)).
Proof using Hcode Hfeat.
  induction suf as [|f suf IH]; intros pre m mf Hi Hj Hsplit;
    cbn [length seq for_].
  { rewrite filter_nil. simpl. do 2 f_equal. lia. }
  rewrite (feature_step_ok i j (length pre) f), bind_Ok; [|done..|].
  2:{ rewrite Hsplit. by apply list_lookup_middle. }
  specialize (IH (pre ++ [f])). rewrite length_app in IH. simpl in IH.
  rewrite Nat.add_1_r in IH.
  rewrite filter_cons.
  destruct (decide (agree (data self) i j f)).
  - rewrite IH; [|done..|by rewrite <- app_assoc].
    simpl. do 2 f_equal. lia.
  - rewrite IH; [done..|by rewrite <- app_assoc].
Qed.

Lemma feature_loop i j :
  (i < n)%nat → (j < n)%nat →
  for_ (range 0 (length (features self))) (feature_step self i j) (0, ""%string)
  = Ok (matches self i j, join_names "" (matched_names self i j)).
Proof using Hcode Hfeat.
  intros Hi Hj. unfold range. rewrite Nat.sub_0_r.
  apply (feature_loop_from i j (features self) [] 0 ""); done.
Qed.
Lemma scan_step_length st p :
  length (nd_list (scan_step self st p)) = length (nd_list st).
Proof.
  unfold scan_step. case_decide; [|done].
  simpl. unfold bump, bump1. by rewrite !length_insert.
Qed.

Lemma foldl_scan_step_length ps : ∀ st,
  length (nd_list (foldl (scan_step self) st ps)) = length (nd_list st).
Proof.
  induction ps as [|p ps IH]; intros st; simpl; [done|].
  by rewrite IH, scan_step_length.
Qed.

Lemma pair_step_diag i st : pair_step self i i st = Ok st.
Proof. unfold pair_step. by rewrite decide_False by naive_solver. Qed.

Lemma pair_step_ok i j st :
  i ≠ j → (i < n)%nat → (j < n)%nat → length (nd_list st) = n →
  pair_step self i j st = Ok (scan_step self st (i, j)).
Proof using Hcode Hfeat.
  intros Hij Hi Hj Hlen. unfold pair_step.
  rewrite decide_True by done.
  rewrite feature_loop, bind_Ok by done.
  unfold scan_step.
  destruct (decide (accepted self (i, j))) as [[H1 H2]|Hn]; simpl in *.
  - rewrite !bool_decide_eq_true_2 by done. simpl.
    rewrite !code_at_ok, !bind_Ok by done.
    rewrite incr_item_ok, bind_Ok by lia.
    rewrite incr_item_ok, bind_Ok
      by (unfold bump1; rewrite length_insert; lia).
    done.
  - destruct (bool_decide (matches self i j >= _)) eqn:E1; simpl; [|done].
    destruct (bool_decide (matches self i j <= _)) eqn:E2; simpl; [|done].
    exfalso. apply Hn. split; simpl.
    + by apply bool_decide_eq_true_1 in E1.
    + by apply bool_decide_eq_true_1 in E2.
Qed.

Lemma item_step_ok i st :
  (i < n)%nat → length (nd_list st) = n →
  item_step self i st
  = Ok (foldl (scan_step self) st ((λ j, (i, j)) <$> seq (S i) (n - S i))).
Proof using Hcode Hfeat.
  intros Hi Hlen. unfold item_step.
  rewrite code_at_ok, bind_Ok by done.
  unfold range. fold n.
  replace (n - i)%nat with (S (n - S i)) by lia.
  cbn [seq for_]. rewrite pair_step_diag, bind_Ok.
  rewrite foldl_fmap.
  apply (for_foldl _ _ (λ s j, scan_step self s (i, j))
           (λ s, length (nd_list s) = n)); [|done].
  intros j s Hjin Hs. apply elem_of_seq in Hjin.
  rewrite scan_step_length. split; [|done].
  apply pair_step_ok; [lia..|done].
Qed.

Lemma foldl_bind {A B C} (f : A → B → A) (g : C → list B) (l : list C) :
  ∀ a, foldl f a (l ≫= g) = foldl (λ a x, foldl f a (g x)) a l.
Proof.
  induction l as [|x l IH]; intros a; [done|].
  rewrite bind_cons, foldl_app. simpl. apply IH.
Qed.

Lemma scan_ok st :
  length (nd_list st) = n →
  for_ (range 0 n) (item_step self) st
  = Ok (foldl (scan_step self) st (index_pairs n)).
Proof using Hcode Hfeat.
  intros Hlen. unfold index_pairs. rewrite foldl_bind.
  unfold range. rewrite Nat.sub_0_r.
  apply (for_foldl _ _
           (λ s i, foldl (scan_step self) s ((λ j, (i, j)) <$> seq (S i) (n - S i)))
           (λ s, length (nd_list s) = n)); [|done].
  intros i s Hiin Hs. apply elem_of_seq in Hiin.
  rewrite foldl_scan_step_length. split; [|done].
  apply item_step_ok; [lia|done].
Qed.
End validated.

(** *** The scan as a filter over the index pairs *)

Lemma foldl_scan_step_filter self ps : ∀ st,
  foldl (scan_step self) st ps = foldl (emit self) st (filter (accepted self) ps).
Proof.
  induction ps as [|p ps IH]; intros st; [done|].
  rewrite filter_cons. simpl. rewrite IH. unfold scan_step.
  by case_decide.
Qed.

Lemma foldl_emit self qs : ∀ st,
  foldl (emit self) st qs
  = {| nbr_target := nbr_target st ++ (target <$> (pair_row self <$> qs));
       nbr_neighbor := nbr_neighbor st ++ (neighbor <$> (pair_row self <$> qs));
       nbr_num_match_features :=
         nbr_num_match_features st
         ++ (num_matched_features <$> (pair_row self <$> qs));
       nbr_match_features :=
         nbr_match_features st ++ (matched_features <$> (pair_row self <$> qs));
       nd_list := foldl bump (nd_list st) qs |}.
Proof.
  induction qs as [|q qs IH]; intros st.
  - simpl. rewrite !app_nil_r. by destruct st.
  - cbn [foldl]. rewrite IH. rewrite !fmap_cons.
    unfold emit at 1 2 3 4 5. cbn [nbr_target nbr_neighbor
      nbr_num_match_features nbr_match_features nd_list].
    by rewrite <- !app_assoc.
Qed.

Lemma frame_rows_fmap (rs : list (NeighborPair V)) :
  frame_rows (target <$> rs) (neighbor <$> rs)
    (num_matched_features <$> rs) (matched_features <$> rs) = rs.
Proof.
  induction rs as [|[t nb c f] rs IH]; [done|].
  rewrite !fmap_cons. cbn [frame_rows]. by rewrite IH.
Qed.

Lemma DataFrame_of_dict_fmap (rs : list (NeighborPair V)) :
  DataFrame_of_dict (target <$> rs) (neighbor <$> rs)
    (num_matched_features <$> rs) (matched_features <$> rs) = Ok rs.
Proof.
  unfold DataFrame_of_dict. rewrite !length_fmap.
  rewrite decide_True by done. by rewrite frame_rows_fmap.
Qed.

Lemma int_truediv_float_advanced n :
  clock_advanced → int_truediv_float n elapsed_time = Ok ().
Proof. unfold clock_advanced, int_truediv_float. by intros ->. Qed.

Lemma int_truediv_float_stalled n :
  ¬ clock_advanced → int_truediv_float n elapsed_time = Raise ZeroDivisionError.
Proof.
  unfold clock_advanced, int_truediv_float.
  by destruct (PrimFloat.eqb elapsed_time 0).
Qed.

(** After the loops: both tables are built, then the elapsed time divides
    the number of items. *)
Lemma _Compute_scanned self :
  "Code" ∈ columns (data self) ∨ len_index (data self) = 0%nat →
  (∀ f, f ∈ features self → f ∈ columns (data self)) →
  _Compute self
  = (_ ← int_truediv_float (len_index (data self)) elapsed_time;
     Ok ({| items := data self;
            Neighborhood_Density :=
              foldl bump (replicate (len_index (data self)) 0)
                (accepted_pairs self) |},
         pair_row self <$> accepted_pairs self)).
Proof.
  intros [Hcode|Hn] Hfeat.
  - unfold _Compute.
    rewrite scan_ok, bind_Ok by (simpl; rewrite ?length_replicate; done).
    rewrite foldl_scan_step_filter, foldl_emit.
    cbn [nbr_target nbr_neighbor nbr_num_match_features nbr_match_features
         nd_list]. rewrite !app_nil_l.
    rewrite DataFrame_of_dict_fmap, bind_Ok.
    destruct (int_truediv_float _ _) as [[]|e]; [|done]. rewrite !bind_Ok.
    rewrite decide_True by (by rewrite foldl_bump_length, length_replicate).
    done.
  - unfold _Compute, accepted_pairs. rewrite Hn. cbn [range seq for_ Nat.sub].
    rewrite bind_Ok. cbn [nbr_target nbr_neighbor nbr_num_match_features
      nbr_match_features nd_list].
    by destruct (int_truediv_float _ _) as [[]|e].
Qed.

(** What [_Compute] returns on a frame that has the [Code] column and
    every feature column, when the clock advanced. *)
Lemma _Compute_ok self :
  "Code" ∈ columns (data self) →
  (∀ f, f ∈ features self → f ∈ columns (data self)) →
  clock_advanced →
  _Compute self
  = Ok ({| items := data self;
           Neighborhood_Density :=
             foldl bump (replicate (len_index (data self)) 0)
               (accepted_pairs self) |},
        pair_row self <$> accepted_pairs self).
Proof.
  intros Hcode Hfeat Hadv. rewrite _Compute_scanned by auto.
  by rewrite int_truediv_float_advanced.
Qed.

(** When the clock did not advance the division after the scan raises. *)
Lemma _Compute_stalled self :
  "Code" ∈ columns (data self) ∨ len_index (data self) = 0%nat →
  (∀ f, f ∈ features self → f ∈ columns (data self)) →
  ¬ clock_advanced →
  _Compute self = Raise ZeroDivisionError.
Proof.
  intros Hcode Hfeat Hadv. rewrite _Compute_scanned by auto.
  by rewrite int_truediv_float_stalled.
Qed.

(** A frame with rows but no [Code] column stops the scan at its first
    lookup. *)
Lemma _Compute_no_Code self :
  "Code" ∉ columns (data self) → (0 < len_index (data self))%nat →
  _Compute self = Raise (KeyError "Code").
Proof.
  intros Hcode Hn. unfold _Compute, range. rewrite Nat.sub_0_r.
  destruct (len_index (data self)) as [|m] eqn:Hm; [lia|].
  cbn [seq for_]. unfold item_step.
  by rewrite (code_at_absent self 0 Hcode).
Qed.

(** On a frame that has every feature column the scan returns its two
    tables, or stops at the lookup of a [Code] column that is absent, or
    builds the tables and raises at the division by an elapsed time of
    zero. *)
Lemma _Compute_cases self :
  features_known (data self) (features self) →
  (("Code" ∈ columns (data self) ∨ len_index (data self) = 0%nat)
   ∧ clock_advanced
   ∧ _Compute self
     = Ok ({| items := data self;
              Neighborhood_Density :=
                foldl bump (replicate (len_index (data self)) 0)
                  (accepted_pairs self) |},
           pair_row self <$> accepted_pairs self))
  ∨ (("Code" ∉ columns (data self)) ∧ (0 < len_index (data self))%nat
     ∧ _Compute self = Raise (KeyError "Code"))
  ∨ (("Code" ∈ columns (data self) ∨ len_index (data self) = 0%nat)
     ∧ ¬ clock_advanced
     ∧ _Compute self = Raise ZeroDivisionError).
Proof.
  intros Hfeat.
  assert ("Code" ∈ columns (data self) ∨ len_index (data self) = 0%nat
          ∨ (("Code" ∉ columns (data self)) ∧ (0 < len_index (data self))%nat))
    as [Hc|[Hn|[Hc Hn]]].
  { destruct (decide ("Code" ∈ columns (data self))); [by left|].
    destruct (decide (len_index (data self) = 0%nat)); [by right; left|].
    right. right. split; [done|lia]. }
  - destruct (decide clock_advanced) as [Hadv|Hadv].
    + left. split_and!; [by left|done|].
      rewrite _Compute_scanned by auto. by rewrite int_truediv_float_advanced.
    + right. right. split_and!; [by left|done|]. apply _Compute_stalled; auto.
  - destruct (decide clock_advanced) as [Hadv|Hadv].
    + left. split_and!; [by right|done|].
      rewrite _Compute_scanned by auto. by rewrite int_truediv_float_advanced.
    + right. right. split_and!; [by right|done|]. apply _Compute_stalled; auto.
  - right. left. split_and!; [done..|]. by apply _Compute_no_Code.
Qed.

(** The two loops consider the index pairs in order, each once. *)
Lemma scan_loops self st :
  features_known (data self) (features self) →
  "Code" ∈ columns (data self) ∨ len_index (data self) = 0%nat →
  length (nd_list st) = len_index (data self) →
  for_ (range 0 (len_index (data self))) (item_step self) st
  = Ok (foldl (scan_step self) st (index_pairs (len_index (data self)))).
Proof.
  intros Hk [Hc|Hn] Hlen; [by apply scan_ok|by rewrite Hn].
Qed.

(** *** The constructor *)

Lemma missing_features_nil (data : DataFrame V) features :
  filter (λ x, x ∉ columns data) features = [] ↔ features_known data features.
Proof.
  unfold features_known. split.
  - intros Hnil f Hf. destruct (decide (f ∈ columns data)) as [|Hn]; [done|].
    by destruct (filter_nil_not_elem_of (λ x, x ∉ columns data) _ f Hnil Hn).
  - intros Hk. induction features as [|f fs IH]; [done|].
    rewrite filter_cons. rewrite decide_False.
    + apply IH. intros g Hg. apply Hk. by right.
    + intros Hn. apply Hn, Hk. by left.
Qed.

Lemma __init___unknown (data : DataFrame V) features am amm :
  ¬ features_known data features →
  __init__ data features am amm
  = Raise (ValueError (Msg_features_not_in_data
             (filter (λ x, x ∉ columns data) features))).
Proof.
  intros Hk. unfold __init__.
  destruct (decide (filter (λ x, x ∉ columns data) features ≠ []))
    as [Hne|Hnil]; [done|].
  exfalso. apply Hk, missing_features_nil.
  by destruct (decide (filter (λ x, x ∉ columns data) features = [])).
Qed.

Lemma __init___thresholds (data : DataFrame V) features am amm :
  features_known data features →
  ¬ thresholds_valid features am amm →
  ∃ e, InvalidThresholdError e ∧ __init__ data features am amm = Raise e.
Proof.
  intros Hk Hv. unfold __init__.
  destruct (decide (filter (λ x, x ∉ columns data) features ≠ []))
    as [Hne|_]; [by apply missing_features_nil in Hk|].
  rewrite bind_Ok.
  destruct (decide (am > Z.of_nat (length features) - 1)).
  { eexists. split; [|done]. done. }
  destruct (decide (am < 0)).
  { eexists. split; [|done]. done. }
  rewrite bind_Ok. destruct amm as [m|].
  - destruct (decide (m > Z.of_nat (length features))).
    { eexists. split; [|done]. done. }
    destruct (decide (m < 1)).
    { eexists. split; [|done]. done. }
    exfalso. apply Hv. unfold thresholds_valid. lia.
  - exfalso. apply Hv. unfold thresholds_valid. lia.
Qed.

Lemma __init___valid (data : DataFrame V) features am amm :
  features_known data features →
  thresholds_valid features am amm →
  __init__ data features am amm
  = (r ← _Compute (validated_attrs data features am amm);
     Ok {| self_attrs := validated_attrs data features am amm;
           nd := r.1; neighbors := r.2 |}).
Proof.
  intros Hk [Ham Hamm]. unfold __init__.
  destruct (decide (filter (λ x, x ∉ columns data) features ≠ []))
    as [Hne|_]; [by apply missing_features_nil in Hk|].
  rewrite bind_Ok.
  rewrite decide_False by lia. rewrite decide_False by lia.
  rewrite bind_Ok. unfold validated_attrs. destruct amm as [m|]; simpl.
  - rewrite decide_False by lia. rewrite decide_False by lia.
    rewrite bind_Ok.
    destruct (_Compute _) as [[ndf nbrs]|e]; done.
  - destruct (_Compute _) as [[ndf nbrs]|e]; done.
Qed.

(** Every successful construction passed validation and holds the tables
    of the scan. *)
Lemma __init___Ok_inv (data : DataFrame V) features am amm obj :
  __init__ data features am amm = Ok obj →
  features_known data features
  ∧ thresholds_valid features am amm
  ∧ self_attrs obj = validated_attrs data features am amm
  ∧ ("Code" ∈ columns data ∨ len_index data = 0%nat)
  ∧ Neighborhood_Density (nd obj)
    = foldl bump (replicate (len_index data) 0) (accepted_pairs obj)
  ∧ items (nd obj) = data
  ∧ neighbors obj = pair_row obj <$> accepted_pairs obj.
Proof.
  intros Hinit.
  destruct (decide (features_known data features)) as [Hk|Hk].
  2:{ rewrite __init___unknown in Hinit by done. done. }
  destruct (decide (thresholds_valid features am amm)) as [Hv|Hv].
  2:{ destruct (__init___thresholds _ _ _ _ Hk Hv) as (e & _ & He).
      congruence. }
  rewrite __init___valid in Hinit by done.
  destruct (_Compute_cases (validated_attrs data features am amm) Hk)
    as [(Hc & _ & Hok)|[(_ & _ & Hraise)|(_ & _ & Hraise)]].
  2,3: by rewrite Hraise in Hinit.
  rewrite Hok, bind_Ok in Hinit. injection Hinit as <-. simpl.
  split_and!; done.
Qed.

(** A construction that returned an object ran while the clock advanced. *)
Lemma __init___Ok_clock (data : DataFrame V) features am amm obj :
  __init__ data features am amm = Ok obj → clock_advanced.
Proof.
  intros Hinit.
  destruct (decide (features_known data features)) as [Hk|Hk].
  2:{ rewrite __init___unknown in Hinit by done. done. }
  destruct (decide (thresholds_valid features am amm)) as [Hv|Hv].
  2:{ destruct (__init___thresholds _ _ _ _ Hk Hv) as (e & _ & He).
      congruence. }
  rewrite __init___valid in Hinit by done.
  destruct (_Compute_cases (validated_attrs data features am amm) Hk)
    as [(_ & Hadv & _)|[(_ & _ & Hraise)|(_ & _ & Hraise)]]; [done|..].
  all: by rewrite Hraise in Hinit.
Qed.

(** *** Accepted pairs *)

Lemma accepted_pairs_spec self i j :
  (i, j) ∈ accepted_pairs self
  ↔ (i < j < len_index (data self))%nat ∧ accepted self (i, j).
Proof.
  unfold accepted_pairs.
  rewrite list_elem_of_filter, elem_of_index_pairs. tauto.
Qed.

Lemma accepted_pairs_distinct self :
  Forall (λ p, p.1 ≠ p.2) (accepted_pairs self).
Proof.
  apply Forall_forall. intros [i j] Hp.
  apply accepted_pairs_spec in Hp. simpl. lia.
Qed.

Lemma accepted_pairs_in_range self :
  Forall (λ p, (p.1 < len_index (data self))%nat
               ∧ (p.2 < len_index (data self))%nat) (accepted_pairs self).
Proof.
  apply Forall_forall. intros [i j] Hp.
  apply accepted_pairs_spec in Hp. simpl. lia.
Qed.

Lemma length_filter_all {A} (P : A → Prop) `{∀ x, Decision (P x)} (l : list A) :
  length (filter P l) = length l ↔ Forall P l.
Proof.
  induction l as [|a l IH]; [by split|].
  rewrite filter_cons, Forall_cons. pose proof (length_filter P l).
  case_decide; simpl.
  - rewrite <- IH. split; [intros [=]; done|intros [_ ->]; done].
  - split; [lia|tauto].
Qed.

Lemma matches_all self i j :
  matches self i j = Z.of_nat (length (features self))
  ↔ ∀ f, f ∈ features self → agree (data self) i j f.
Proof.
  unfold matches, matched_names.
  by rewrite Nat2Z.inj_iff, length_filter_all, Forall_forall.
Qed.

Lemma matches_le self i j : matches self i j <= Z.of_nat (length (features self)).
Proof.
  unfold matches, matched_names.
  pose proof (length_filter (agree (data self) i j) (features self)). lia.
Qed.

(** *** The text of the matched features *)

Lemma join2_nonempty sep a b : sep ≠ ""%string → join2 sep a b ≠ ""%string.
Proof.
  unfold join2. destruct a; simpl; [|done]. destruct sep; simpl; done.
Qed.

Lemma join_names_nonempty names : ∀ acc,
  acc ≠ ""%string → join_names acc names ≠ ""%string.
Proof.
  induction names as [|f names IH]; intros acc Hacc; [done|].
  simpl. apply IH. unfold join_step. rewrite decide_False by done.
  by apply join2_nonempty.
Qed.

Lemma join_names_from_empty names :
  names ≠ [] → Forall (λ f, f ≠ ""%string) names →
  join_names "" names ≠ ""%string.
Proof.
  destruct names as [|f names]; [done|]. intros _ Hall.
  apply Forall_cons in Hall as [Hf _]. simpl.
  apply join_names_nonempty. unfold join_step. by rewrite decide_True.
Qed.
End scan.

(** *** Mirroring *)

Section mirror.
Context {V : Type} (Vle : relation V) `{Vle_dec : ∀ x y, Decision (Vle x y)}.
Implicit Types (r : NeighborPair V) (l : list (NeighborPair V)).

Lemma swap_row_involutive r : swap_row (swap_row r) = r.
Proof. by destruct r. Qed.

Lemma swap_columns l :
  set_neighbor (set_target l (neighbor <$> l)) (target <$> l)
  = swap_row <$> l.
Proof.
  unfold set_neighbor, set_target.
  induction l as [|r l IH]; [done|].
  rewrite !fmap_cons. cbn [zip_with]. by rewrite IH.
Qed.

Lemma _MirrorNeighbors_perm (self : instance V) :
  _MirrorNeighbors Vle self
  ≡ₚ neighbors self ++ (swap_row <$> neighbors self).
Proof.
  unfold _MirrorNeighbors, sort_values_target_neighbor.
  rewrite swap_columns. apply merge_sort_Permutation.
Qed.

Lemma elem_of__MirrorNeighbors (self : instance V) r :
  r ∈ _MirrorNeighbors Vle self
  ↔ r ∈ neighbors self ∨ ∃ r', r' ∈ neighbors self ∧ r = swap_row r'.
Proof.
  rewrite _MirrorNeighbors_perm, elem_of_app, list_elem_of_fmap.
  split; (intros [?|(r' & ? & ?)]; [by left|right; eauto]).
Qed.

Context `{Vle_total : !Total Vle}.

#[local] Instance cell_le_total : Total (cell_le Vle).
Proof using Vle_total.
  intros [a|] [b|]; simpl; first [apply (total Vle) | auto].
Qed.

#[local] Instance by_target_neighbor_total : Total (by_target_neighbor Vle).
Proof using Vle_dec Vle_total.
  intros r1 r2. unfold by_target_neighbor.
  destruct (total (cell_le Vle) (target r1) (target r2)) as [H12|H21].
  - destruct (decide (cell_le Vle (target r2) (target r1))) as [H21|H21].
    + destruct (total (cell_le Vle) (neighbor r1) (neighbor r2)); auto.
    + left. split; [done|]. intros ?; done.
  - destruct (decide (cell_le Vle (target r1) (target r2))) as [H12|H12].
    + destruct (total (cell_le Vle) (neighbor r1) (neighbor r2)); auto.
    + right. split; [done|]. intros ?; done.
Qed.

Lemma _MirrorNeighbors_sorted (self : instance V) :
  Sorted (by_target_neighbor Vle) (_MirrorNeighbors Vle self).
Proof using Vle_total.
  unfold _MirrorNeighbors, sort_values_target_neighbor.
  apply (Sorted_merge_sort _).
Qed.

Lemma deduplicate_covers (self : instance V) r :
  r ∈ neighbors self →
  ∃ r', r' ∈ deduplicate Vle (_MirrorNeighbors Vle self)
        ∧ same_unordered r r'.
Proof using Vle_total.
  intros Hr. unfold deduplicate.
  destruct (total (cell_le Vle) (target r) (neighbor r)) as [Hle|Hle].
  - exists r. split; [|by left].
    apply list_elem_of_filter. split; [done|].
    apply elem_of__MirrorNeighbors. by left.
  - exists (swap_row r). split; [|right; by rewrite swap_row_involutive].
    apply list_elem_of_filter. split; [done|].
    apply elem_of__MirrorNeighbors. right. eauto.
Qed.

Lemma deduplicate_sound (self : instance V) r' :
  r' ∈ deduplicate Vle (_MirrorNeighbors Vle self) →
  ∃ r, r ∈ neighbors self ∧ same_unordered r r'.
Proof.
  unfold deduplicate. intros [_ Hr]%list_elem_of_filter.
  apply elem_of__MirrorNeighbors in Hr as [Hr|(r & Hr & ->)].
  - exists r'. split; [done|by left].
  - exists r. split; [done|]. right. by rewrite swap_row_involutive.
Qed.
End mirror.

(** ** The claims of the specification *)

Section claims.
Context {V : Type} `{Veq : EqDecision V} `{clock : Clock}.
Implicit Types (df : DataFrame V) (features : list string)
  (am : Z) (amm : option Z) (obj : instance V) (r : NeighborPair V).

Lemma default_None_Some (x : option (cell V)) (v : V) :
  default None x = Some v ↔ x = Some (Some v).
Proof. destruct x as [[w|]|]; simpl; naive_solver. Qed.

(** C2. On a frame with pairwise distinct labels, for item indices [i],
    [j] of the dataset and a feature name of the validated FeatureSet:
    the name is the label at one position [p] of the header, the items
    are the rows [ri] and [rj] of the frame, and [_MatchFeature] returns
    [true] exactly when both rows hold a present value at [p] and the two
    values are equal; it returns [false] when either value is missing,
    both included, and raises nothing. *)
Theorem match_feature_present_and_equal (self : attrs V) i j feature :
  NoDup (columns (data self)) →
  features_known (data self) (features self) →
  feature ∈ features self →
  (i < len_index (data self))%nat → (j < len_index (data self))%nat →
  ∃ p ri rj b,
    columns (data self) !! p = Some feature
    ∧ rows (data self) !! i = Some ri
    ∧ rows (data self) !! j = Some rj
    ∧ _MatchFeature self i j feature = Ok b
    ∧ (b = true ↔ ∃ v, ri !! p = Some (Some v) ∧ rj !! p = Some (Some v))
    ∧ ((∀ v, ri !! p ≠ Some (Some v)) ∨ (∀ v, rj !! p ≠ Some (Some v))
       → b = false).
Proof.
  intros _ Hk Hf Hi Hj. specialize (Hk _ Hf).
  destruct (index_of_elem _ _ Hk) as [p Hp].
  destruct (index_of_Some _ _ _ Hp) as [_ Hlabel].
  destruct (lookup_lt_is_Some_2 (rows (data self)) i Hi) as [ri Hri].
  destruct (lookup_lt_is_Some_2 (rows (data self)) j Hj) as [rj Hrj].
  exists p, ri, rj, (bool_decide (agree (data self) i j feature)).
  assert (agree (data self) i j feature
          ↔ ∃ v, ri !! p = Some (Some v) ∧ rj !! p = Some (Some v)) as Hagree.
  { unfold agree, cell_of. rewrite Hp, Hri, Hrj.
    by setoid_rewrite default_None_Some. }
  split_and!; [done|done|done|by apply _MatchFeature_ok|..].
  - by rewrite bool_decide_eq_true.
  - intros Hnone. apply bool_decide_eq_false. rewrite Hagree.
    intros (v & H1 & H2). destruct Hnone as [Hn|Hn]; by eapply Hn.
Qed.

(** C1. After a successful construction the neighbour rows are those of
    the index pairs [i < j] whose match count [m] satisfies
    [m >= k - allowedMisses] and [m <= allowedMatches], the density of
    an item is the number of those pairs it is a member of, and under
    the defaults ([allowedMisses = 0], [allowedMatches] not supplied) a
    pair is accepted exactly when every feature has a present and equal
    value on both items. *)
Theorem neighbor_iff_within_thresholds df features am amm obj :
  __init__ df features am amm = Ok obj →
  let k := Z.of_nat (length features) in
  let n := len_index df in
  neighbors obj = pair_row obj <$> accepted_pairs obj
  ∧ Neighborhood_Density (nd obj) = member_count (accepted_pairs obj) <$> seq 0 n
  ∧ (∀ i j, matches obj i j
            = Z.of_nat (length (filter (agree df i j) features)))
  ∧ (∀ i j, (i, j) ∈ accepted_pairs obj
            ↔ (i < j < n)%nat
              ∧ matches obj i j >= k - am
              ∧ matches obj i j <= default k amm)
  ∧ (am = 0 → amm = None →
     ∀ i j, (i, j) ∈ accepted_pairs obj
            ↔ (i < j < n)%nat ∧ ∀ f, f ∈ features → agree df i j f)
  ∧ (∀ i j st, (i < j < n)%nat → length (nd_list st) = n →
     pair_step obj i j st
     = Ok (if decide (matches obj i j >= k - am
                      ∧ matches obj i j <= default k amm)
           then emit obj st (i, j) else st)).
Proof.
  intros Hinit k n.
  destruct (__init___Ok_inv _ _ _ _ _ Hinit)
    as (Hk & Hv & Hself & Hc & Hnd & Hitems & Hnb).
  split_and!.
  - done.
  - rewrite Hnd. apply foldl_bump_replicate, accepted_pairs_distinct.
  - intros i j. by rewrite Hself.
  - intros i j. rewrite accepted_pairs_spec. unfold accepted.
    rewrite Hself. simpl. done.
  - intros -> -> i j. rewrite accepted_pairs_spec. unfold accepted.
    pose proof (matches_le obj i j) as Hle.
    pose proof (matches_all obj i j) as Hall.
    rewrite Hself in *. simpl in *. rewrite <- Hall. fold n. lia.
  - intros i j st Hij Hlen.
    destruct Hc as [Hc|Hc]; [|unfold n in Hij; lia].
    rewrite pair_step_ok.
    + unfold scan_step, accepted. rewrite Hself. done.
    + by rewrite Hself.
    + by rewrite Hself.
    + lia.
    + rewrite Hself. simpl. fold n. lia.
    + rewrite Hself. simpl. fold n. lia.
    + by rewrite Hself.
Qed.

(** C3. After a successful construction over [n] items the density
    values sum to twice the number of neighbour rows, there is one value
    per item, and every value lies between [0] and [n - 1]. *)
Theorem density_sum_and_bounds df features am amm obj :
  __init__ df features am amm = Ok obj →
  let n := len_index df in
  sum (Neighborhood_Density (nd obj)) = 2 * Z.of_nat (length (neighbors obj))
  ∧ length (Neighborhood_Density (nd obj)) = n
  ∧ Forall (λ d, 0 <= d <= Z.of_nat n - 1) (Neighborhood_Density (nd obj))
  ∧ Neighborhood_Density (nd obj) = member_count (accepted_pairs obj) <$> seq 0 n
  ∧ (∀ st i j, (i < length (nd_list st))%nat → (j < length (nd_list st))%nat →
               sum (nd_list (emit obj st (i, j))) = sum (nd_list st) + 2).
Proof.
  intros Hinit n.
  destruct (__init___Ok_inv _ _ _ _ _ Hinit)
    as (Hk & Hv & Hself & Hc & Hnd & Hitems & Hnb).
  assert (len_index (data obj) = n) as Hn by (by rewrite Hself).
  split_and!.
  - rewrite Hnd, Hnb, length_fmap, sum_foldl_bump, sum_replicate; [lia|].
    rewrite length_replicate. fold n. rewrite <- Hn.
    apply accepted_pairs_in_range.
  - by rewrite Hnd, foldl_bump_length, length_replicate.
  - rewrite Hnd, foldl_bump_replicate by apply accepted_pairs_distinct.
    apply Forall_fmap, Forall_forall. intros x Hx.
    apply elem_of_seq in Hx. simpl. split.
    + unfold member_count. lia.
    + etrans; [|apply (member_count_index_pairs n x); lia].
      unfold member_count, accepted_pairs. rewrite Hn.
      apply inj_le, length_filter_filter.
  - rewrite Hnd. apply foldl_bump_replicate, accepted_pairs_distinct.
  - intros st i j Hi Hj.
    simpl. unfold bump. simpl. rewrite !sum_bump1; rewrite ?bump1_length; lia.
Qed.

(** C8. After a successful construction the neighbour rows are the rows
    of the accepted pairs taken from the enumeration of the index pairs,
    in its order; the enumeration holds exactly the pairs [i < j < n],
    each once, [i] ascending and then [j] ascending; the row of a pair
    has the [Code] of item [i] as target and that of item [j] as
    neighbor. *)
Theorem scan_order_and_coverage df features am amm obj :
  __init__ df features am amm = Ok obj →
  let n := len_index df in
  neighbors obj = pair_row obj <$> filter (accepted obj) (index_pairs n)
  ∧ (∀ i j, (i, j) ∈ index_pairs n ↔ (i < j < n)%nat)
  ∧ NoDup (index_pairs n)
  ∧ StronglySorted pair_lt (index_pairs n)
  ∧ (∀ p, target (pair_row obj p) = cell_of df p.1 "Code"
          ∧ neighbor (pair_row obj p) = cell_of df p.2 "Code")
  ∧ (∀ st, length (nd_list st) = n →
           for_ (range 0 n) (item_step obj) st
           = Ok (foldl (scan_step obj) st (index_pairs n)))
  ∧ (∀ i st, pair_step obj i i st = Ok st).
Proof.
  intros Hinit n.
  destruct (__init___Ok_inv _ _ _ _ _ Hinit)
    as (Hk & Hv & Hself & Hc & Hnd & Hitems & Hnb).
  split_and!.
  - rewrite Hnb. unfold accepted_pairs. by rewrite Hself.
  - apply elem_of_index_pairs.
  - apply NoDup_index_pairs.
  - apply StronglySorted_index_pairs.
  - intros p. unfold pair_row. rewrite Hself. done.
  - intros st Hlen.
    pose proof (scan_loops obj st) as Hloops.
    rewrite Hself in Hloops. simpl in Hloops. rewrite <- Hself in Hloops.
    by apply Hloops.
  - intros i st. apply pair_step_diag.
Qed.

Lemma threshold_error_not_feature_error (e : exn) :
  InvalidThresholdError e → ¬ UnknownFeatureError e.
Proof. destruct e as [[]| | |]; simpl; tauto. Qed.

(** What a construction that passed validation can raise. *)
Lemma __init___valid_cases df features am amm :
  features_known df features → thresholds_valid features am amm →
  (∃ obj, __init__ df features am amm = Ok obj)
  ∨ (("Code" ∉ columns df) ∧ (0 < len_index df)%nat
     ∧ __init__ df features am amm = Raise (KeyError "Code"))
  ∨ (¬ clock_advanced
     ∧ __init__ df features am amm = Raise ZeroDivisionError).
Proof.
  intros Hk Hv. rewrite __init___valid by done.
  destruct (_Compute_cases (validated_attrs df features am amm) Hk)
    as [(_ & _ & ->)|[(Hc & Hn & ->)|(_ & Hadv & ->)]].
  - left. rewrite bind_Ok. eauto.
  - right. left. done.
  - right. right. done.
Qed.

(** C5. When every requested feature is a column of the dataset,
    construction fails with the threshold error exactly when
    [allowedMisses] is outside [0, k-1] or a supplied [allowedMatches] is
    outside [1, k]; an [allowedMatches] that is not supplied becomes [k];
    and the threshold error does not depend on the rows of the dataset:
    it is raised before the scan reads any of them. *)
Theorem threshold_error_iff df features am amm :
  features_known df features →
  let k := Z.of_nat (length features) in
  ((∃ e, InvalidThresholdError e ∧ __init__ df features am amm = Raise e)
   ↔ (am < 0 ∨ am > k - 1 ∨ ∃ m, amm = Some m ∧ (m < 1 ∨ m > k)))
  ∧ (∀ obj, __init__ df features am None = Ok obj → allowed_matches obj = k)
  ∧ (¬ thresholds_valid features am amm →
     ∀ rows', __init__ {| columns := columns df; rows := rows' |} features am amm
              = __init__ df features am amm).
Proof.
  intros Hk k. split_and!.
  - split.
    + intros (e & He & Hraise).
      destruct (decide (thresholds_valid features am amm)) as [Hv|Hv].
      * destruct (__init___valid_cases _ _ _ _ Hk Hv)
          as [[obj Hobj]|[(_ & _ & Hkey)|(_ & Hkey)]]; [congruence|..];
          rewrite Hkey in Hraise; injection Hraise as <-; done.
      * unfold thresholds_valid in Hv. fold k in Hv.
        destruct amm as [m|]; [|lia].
        destruct (decide (1 <= m <= k)); [lia|].
        right. right. exists m. split; [done|lia].
    + intros Hout. apply __init___thresholds; [done|].
      unfold thresholds_valid. fold k.
      destruct Hout as [?|[?|(m & -> & ?)]]; lia.
  - intros obj Hinit.
    destruct (__init___Ok_inv _ _ _ _ _ Hinit) as (_ & _ & -> & _). done.
  - intros Hv rows'. unfold __init__. cbn [columns].
    destruct (decide (filter (λ x, x ∉ columns df) features ≠ [])); [done|].
    rewrite !bind_Ok.
    destruct (decide (am > Z.of_nat (length features) - 1)); [done|].
    destruct (decide (am < 0)); [done|].
    rewrite !bind_Ok. destruct amm as [m|].
    + destruct (decide (m > Z.of_nat (length features))); [done|].
      destruct (decide (m < 1)); [done|].
      exfalso. apply Hv. unfold thresholds_valid. lia.
    + exfalso. apply Hv. unfold thresholds_valid. lia.
Qed.

(** C6. The names held by the unknown-feature error are exactly the
    requested names that are not columns of the dataset; when there is
    such a name construction fails with that error, whatever the
    thresholds and the rows are; when every requested name is a column
    no failure of construction is the unknown-feature error. *)
Theorem unknown_feature_error df features am amm :
  let missing := filter (λ x, x ∉ columns df) features in
  (∀ f, f ∈ missing ↔ f ∈ features ∧ f ∉ columns df)
  ∧ ((∃ f, f ∈ features ∧ f ∉ columns df) →
     missing ≠ []
     ∧ __init__ df features am amm
       = Raise (ValueError (Msg_features_not_in_data missing)))
  ∧ (features_known df features →
     ∀ e, __init__ df features am amm = Raise e → ¬ UnknownFeatureError e).
Proof.
  intros missing. split_and!.
  - intros f. unfold missing. rewrite list_elem_of_filter. tauto.
  - intros (f & Hf & Hn).
    assert (¬ features_known df features) as Hk by (intros Hk; by apply Hn, Hk).
    split; [|by apply __init___unknown].
    unfold missing. by rewrite missing_features_nil.
  - intros Hk e Hraise.
    destruct (decide (thresholds_valid features am amm)) as [Hv|Hv].
    + destruct (__init___valid_cases _ _ _ _ Hk Hv)
        as [[obj Hobj]|[(_ & _ & Hkey)|(_ & Hkey)]]; [congruence|..];
        rewrite Hkey in Hraise; injection Hraise as <-; simpl; tauto.
    + destruct (__init___thresholds _ _ _ _ Hk Hv) as (e' & He' & Hraise').
      rewrite Hraise' in Hraise. injection Hraise as <-.
      by apply threshold_error_not_feature_error.
Qed.

(** C9. On a frame with pairwise distinct labels and a [Code] column,
    for a configuration that passes validation, the loops of the scan
    raise nothing, whatever cells are missing, and both tables are built.
    Construction returns them only when the clock advanced during the
    scan: line 231 divides by the elapsed time without the guard that the
    same division has at lines 163-166, and when the elapsed time is zero
    construction raises [ZeroDivisionError]. *)
Theorem scan_completes_then_divides_by_elapsed_time df features am amm :
  NoDup (columns df) →
  features_known df features → thresholds_valid features am amm →
  "Code" ∈ columns df →
  let self := validated_attrs df features am amm in
  (∀ st, length (nd_list st) = len_index df →
         for_ (range 0 (len_index df)) (item_step self) st
         = Ok (foldl (scan_step self) st (index_pairs (len_index df))))
  ∧ (clock_advanced →
     ∃ obj, __init__ df features am amm = Ok obj
            ∧ self_attrs obj = self
            ∧ _Compute obj = Ok (nd obj, neighbors obj))
  ∧ (¬ clock_advanced →
     __init__ df features am amm = Raise ZeroDivisionError).
Proof.
  intros _ Hk Hv Hc self. split_and!.
  - intros st Hlen. by apply (scan_loops self st); [|left|].
  - intros Hadv. rewrite __init___valid by done. fold self.
    rewrite (_Compute_ok self) by done.
    rewrite bind_Ok. eexists. split_and!; [done..|].
    cbn [self_attrs nd neighbors fst snd]. by rewrite _Compute_ok.
  - intros Hadv. rewrite __init___valid by done. fold self.
    by rewrite (_Compute_stalled self) by auto.
Qed.

(** C10. After a successful construction the FeatureSet is not empty and
    every neighbour row has a match count of at least 1; its
    matched-features text is not empty when no feature name is the empty
    string. *)
Theorem neighbor_rows_match_a_feature df features am amm obj :
  __init__ df features am amm = Ok obj →
  features ≠ []
  ∧ ∀ r, r ∈ neighbors obj →
         1 <= num_matched_features r
         ∧ ((∀ f, f ∈ features → f ≠ ""%string)
            → matched_features r ≠ ""%string).
Proof.
  intros Hinit.
  destruct (__init___Ok_inv _ _ _ _ _ Hinit)
    as (Hk & [Ham Hamm] & Hself & Hc & Hnd & Hitems & Hnb).
  split.
  { intros ->. simpl in Ham. lia. }
  intros r Hr. rewrite Hnb in Hr.
  apply list_elem_of_fmap in Hr as ([i j] & -> & Hp).
  apply accepted_pairs_spec in Hp as [_ [Hlow _]].
  rewrite Hself in Hlow. simpl in Hlow.
  assert (1 <= matches obj i j) as Hone.
  { rewrite Hself. lia. }
  split; [done|]. intros Hnames. simpl.
  apply join_names_from_empty.
  - intros Hnil. unfold matches in Hone. rewrite Hnil in Hone. simpl in Hone. lia.
  - apply Forall_forall. intros f Hf. unfold matched_names in Hf.
    apply list_elem_of_filter in Hf as [_ Hf]. rewrite Hself in Hf. by apply Hnames.
Qed.

(** C7. The mirrored list holds, for every row of the neighbour list,
    the row itself and the row with target and neighbor exchanged, the
    other fields unchanged, and nothing else; it is sorted by
    [(target, neighbor)] ascending; keeping the rows whose target is not
    above their neighbor gives back the unordered pairs of the neighbour
    list, all of them and no other. *)
Theorem mirror_both_directions (Vle : relation V)
    `{Vle_dec : ∀ x y, Decision (Vle x y)} `{!Total Vle} obj :
  (∀ r, r ∈ neighbors obj →
        r ∈ _MirrorNeighbors Vle obj ∧ swap_row r ∈ _MirrorNeighbors Vle obj)
  ∧ _MirrorNeighbors Vle obj ≡ₚ neighbors obj ++ (swap_row <$> neighbors obj)
  ∧ (∀ r, target (swap_row r) = neighbor r
          ∧ neighbor (swap_row r) = target r
          ∧ num_matched_features (swap_row r) = num_matched_features r
          ∧ matched_features (swap_row r) = matched_features r)
  ∧ Sorted (by_target_neighbor Vle) (_MirrorNeighbors Vle obj)
  ∧ (∀ r, r ∈ neighbors obj →
          ∃ r', r' ∈ deduplicate Vle (_MirrorNeighbors Vle obj)
                ∧ same_unordered r r')
  ∧ (∀ r', r' ∈ deduplicate Vle (_MirrorNeighbors Vle obj) →
           ∃ r, r ∈ neighbors obj ∧ same_unordered r r').
Proof.
  split_and!.
  - intros r Hr. split; apply elem_of__MirrorNeighbors; [by left|].
    right. eauto.
  - apply _MirrorNeighbors_perm.
  - intros r. by destruct r.
  - by apply _MirrorNeighbors_sorted.
  - intros r Hr. by apply deduplicate_covers.
  - intros r' Hr'. by eapply deduplicate_sound.
Qed.

(** C4. The accessor's flag defaults to mirroring; with the flag false
    the accessor returns the neighbour list as scanned, one row per
    accepted pair and each such pair with [i < j]; the density table is
    read without the flag and counts, for each item, the accepted pairs
    it is a member of. *)
Theorem accessor_mirror_flag (Vle : relation V)
    `{Vle_dec : ∀ x y, Decision (Vle x y)} df features am amm obj :
  __init__ df features am amm = Ok obj →
  Neighbors Vle obj true = _MirrorNeighbors Vle obj
  ∧ Neighbors Vle obj false = pair_row obj <$> accepted_pairs obj
  ∧ length (Neighbors Vle obj false) = length (accepted_pairs obj)
  ∧ NoDup (accepted_pairs obj)
  ∧ (∀ i j, (i, j) ∈ accepted_pairs obj → (i < j)%nat)
  ∧ Neighborhood_Density (ND obj)
    = member_count (accepted_pairs obj) <$> seq 0 (len_index df).
Proof.
  intros Hinit.
  destruct (__init___Ok_inv _ _ _ _ _ Hinit)
    as (Hk & Hv & Hself & Hc & Hnd & Hitems & Hnb).
  split_and!; [done|done| | | |].
  - unfold Neighbors. by rewrite Hnb, length_fmap.
  - apply NoDup_filter, NoDup_index_pairs.
  - intros i j Hp. apply accepted_pairs_spec in Hp. lia.
  - unfold ND. rewrite Hnd.
    apply foldl_bump_replicate, accepted_pairs_distinct.
Qed.
End claims.

(** ** Further properties of the code *)

Section further.
Context {V : Type} `{Veq : EqDecision V} `{clock : Clock}.
Implicit Types (df : DataFrame V) (features : list string)
  (am : Z) (amm : option Z) (obj : instance V) (r : NeighborPair V).

(** *** What a construction returns *)

Lemma __init___constructed df features am amm :
  features_known df features → thresholds_valid features am amm →
  "Code" ∈ columns df ∨ len_index df = 0%nat →
  clock_advanced →
  __init__ df features am amm = Ok (constructed df features am amm).
Proof.
  intros Hk Hv Hc Hadv. rewrite __init___valid by done.
  destruct (_Compute_cases (validated_attrs df features am amm) Hk)
    as [(_ & _ & ->)|[(Hn & Hpos & _)|(_ & Hstall & _)]].
  - rewrite bind_Ok. unfold constructed. cbn [fst snd].
    by rewrite foldl_bump_replicate by apply accepted_pairs_distinct.
  - simpl in *. destruct Hc; [done|lia].
  - done.
Qed.

Lemma __init___Ok_constructed df features am amm obj :
  __init__ df features am amm = Ok obj →
  obj = constructed df features am amm
  ∧ features_known df features ∧ thresholds_valid features am amm
  ∧ ("Code" ∈ columns df ∨ len_index df = 0%nat).
Proof.
  intros Hinit.
  destruct (__init___Ok_inv _ _ _ _ _ Hinit) as (Hk & Hv & _ & Hc & _).
  pose proof (__init___Ok_clock _ _ _ _ _ Hinit) as Hadv.
  rewrite __init___constructed in Hinit by done.
  injection Hinit as <-. done.
Qed.

(** X1. On a frame with pairwise distinct labels, with known features
    and valid thresholds, construction has one of three outcomes: on a
    frame with rows and no [Code] column it raises [KeyError('Code')] at
    the first item; otherwise the scan completes, and construction raises
    [ZeroDivisionError] when the clock did not advance during it and
    returns the object when it did. *)
Theorem construction_outcome df features am amm :
  NoDup (columns df) →
  features_known df features → thresholds_valid features am amm →
  __init__ df features am amm
  = if decide (("Code" ∉ columns df) ∧ (0 < len_index df)%nat)
    then Raise (KeyError "Code")
    else if decide clock_advanced
         then Ok (constructed df features am amm)
         else Raise ZeroDivisionError.
Proof.
  intros _ Hk Hv.
  destruct (decide (("Code" ∉ columns df) ∧ (0 < len_index df)%nat))
    as [[Hc Hn]|Hc].
  { rewrite __init___valid by done.
    by rewrite (_Compute_no_Code (validated_attrs df features am amm)). }
  assert ("Code" ∈ columns df ∨ len_index df = 0%nat) as Hc'.
  { destruct (decide ("Code" ∈ columns df)); [by left|].
    right. destruct (len_index df); [done|]. exfalso. apply Hc. split; [done|lia]. }
  destruct (decide clock_advanced) as [Hadv|Hadv].
  - by apply __init___constructed.
  - rewrite __init___valid by done.
    by rewrite (_Compute_stalled (validated_attrs df features am amm)).
Qed.

(** *** How many rows *)

Lemma length_pairs_from m : ∀ a,
  (2 * length (seq a m ≫= λ i, (λ j, (i, j)) <$> seq (S i) (a + m - S i))
   = m * (m - 1))%nat.
Proof.
  induction m as [|m IH]; intros a; [done|].
  cbn [seq]. rewrite bind_cons, length_app, length_fmap, length_seq.
  replace (a + S m)%nat with (S a + m)%nat by lia.
  specialize (IH (S a)). destruct m; simpl in *; lia.
Qed.

Lemma length_index_pairs n : (2 * length (index_pairs n) = n * (n - 1))%nat.
Proof. apply (length_pairs_from n 0). Qed.

Lemma index_pairs_few n : (n ≤ 1)%nat → index_pairs n = [].
Proof. intros Hn. by destruct n as [|[|n]]; [..|lia]. Qed.

(** X2. A dataset with fewer than two items has no neighbour pairs: the
    neighbour list and its mirror are empty and every density is 0. *)
Theorem fewer_than_two_items (Vle : relation V)
    `{Vle_dec : ∀ x y, Decision (Vle x y)} df features am amm obj :
  __init__ df features am amm = Ok obj →
  (len_index df ≤ 1)%nat →
  neighbors obj = []
  ∧ Neighbors Vle obj true = []
  ∧ Neighborhood_Density (ND obj) = replicate (len_index df) 0.
Proof.
  intros Hinit Hn.
  destruct (__init___Ok_constructed _ _ _ _ _ Hinit) as (-> & _).
  unfold constructed, accepted_pairs. simpl.
  rewrite index_pairs_few by done.
  split_and!; [done|done|].
  destruct (len_index df) as [|[|n]]; [done|done|lia].
Qed.

(** X3. Over [n] items the neighbour list has at most [n (n - 1) / 2]
    rows. *)
Theorem neighbor_rows_bound df features am amm obj :
  __init__ df features am amm = Ok obj →
  (2 * length (neighbors obj) ≤ len_index df * (len_index df - 1))%nat.
Proof.
  intros Hinit.
  destruct (__init___Ok_constructed _ _ _ _ _ Hinit) as (-> & _).
  unfold constructed, accepted_pairs. simpl. rewrite length_fmap.
  rewrite <- length_index_pairs.
  pose proof (length_filter
    (accepted (validated_attrs df features am amm))
    (index_pairs (len_index df))). lia.
Qed.

(** X4. Whatever the order used for sorting, the mirrored list has twice
    as many rows as the neighbour list, and it is symmetric: it holds a
    row exactly when it holds the row with target and neighbor
    exchanged. *)
Theorem mirror_doubles_and_is_symmetric (Vle : relation V)
    `{Vle_dec : ∀ x y, Decision (Vle x y)} obj :
  length (_MirrorNeighbors Vle obj) = (2 * length (neighbors obj))%nat
  ∧ ∀ r, r ∈ _MirrorNeighbors Vle obj ↔ swap_row r ∈ _MirrorNeighbors Vle obj.
Proof.
  split.
  - rewrite _MirrorNeighbors_perm, length_app, length_fmap. lia.
  - intros r. rewrite !elem_of__MirrorNeighbors. split.
    + intros [Hr|(r' & Hr' & ->)].
      * right. eauto.
      * left. by rewrite swap_row_involutive.
    + intros [Hr|(r' & Hr' & Heq)].
      * right. exists (swap_row r). by rewrite swap_row_involutive.
      * left. apply (f_equal swap_row) in Heq.
        rewrite !swap_row_involutive in Heq. by subst.
Qed.

(** *** Symmetry, order of the features, thresholds *)

Lemma agree_sym df i j label : agree df i j label ↔ agree df j i label.
Proof. unfold agree. split; intros (v & ? & ?); eauto. Qed.

Lemma matched_names_sym (self : attrs V) i j :
  matched_names self i j = matched_names self j i.
Proof. unfold matched_names. apply list_filter_iff. intros f. apply agree_sym. Qed.

(** X5. The comparison of two items does not depend on their order: on
    a validated frame [_MatchFeature] gives the same answer for [(i, j)]
    and [(j, i)], the loop over the features returns the same count and
    the same text, and the acceptance test agrees; scanning the pairs
    [i < j] only loses nothing. *)
Theorem comparison_is_symmetric (self : attrs V) i j :
  features_known (data self) (Neighbors.features self) →
  "Code" ∈ columns (data self) →
  (i < len_index (data self))%nat → (j < len_index (data self))%nat →
  (∀ f, f ∈ Neighbors.features self →
        _MatchFeature self i j f = _MatchFeature self j i f)
  ∧ for_ (range 0 (length (Neighbors.features self))) (feature_step self i j)
         (0, ""%string)
    = for_ (range 0 (length (Neighbors.features self))) (feature_step self j i)
           (0, ""%string)
  ∧ (accepted self (i, j) ↔ accepted self (j, i)).
Proof.
  intros Hk Hc Hi Hj. split_and!.
  - intros f Hf. rewrite !_MatchFeature_ok by auto.
    f_equal. apply bool_decide_ext, agree_sym.
  - rewrite !feature_loop by done.
    unfold matches. by rewrite (matched_names_sym self i j).
  - unfold accepted, matches. simpl. by rewrite (matched_names_sym self i j).
Qed.

Lemma accepted_validated df features am amm i j :
  accepted (validated_attrs df features am amm) (i, j)
  ↔ Z.of_nat (length (filter (agree df i j) features))
      >= Z.of_nat (length features) - am
    ∧ Z.of_nat (length (filter (agree df i j) features))
      <= default (Z.of_nat (length features)) amm.
Proof. done. Qed.



Lemma filter_sublist_impl {A} (P Q : A → Prop)
    `{∀ x, Decision (P x)} `{∀ x, Decision (Q x)} (l : list A) :
  (∀ x, P x → Q x) → filter P l `sublist_of` filter Q l.
Proof.
  intros Himpl. induction l as [|a l IH]; [done|].
  rewrite !filter_cons. destruct (decide (P a)) as [Hp|Hp].
  - rewrite decide_True by auto. by apply sublist_skip.
  - destruct (decide (Q a)); [by apply sublist_cons|done].
Qed.

(** X7. Widening the thresholds only adds neighbours: with a larger
    [allowed_misses] and an upper bound that is not smaller, the old
    neighbour list is a sublist of the new one and no density goes
    down. *)
Theorem wider_thresholds_add_neighbors df features am am' amm amm' obj obj' :
  __init__ df features am amm = Ok obj →
  __init__ df features am' amm' = Ok obj' →
  am <= am' →
  default (Z.of_nat (length features)) amm
    <= default (Z.of_nat (length features)) amm' →
  neighbors obj `sublist_of` neighbors obj'
  ∧ ∀ x d d', Neighborhood_Density (nd obj) !! x = Some d →
              Neighborhood_Density (nd obj') !! x = Some d' → d <= d'.
Proof.
  intros Hinit Hinit' Ham Hamm.
  destruct (__init___Ok_constructed _ _ _ _ _ Hinit) as (-> & _).
  destruct (__init___Ok_constructed _ _ _ _ _ Hinit') as (-> & _).
  assert (∀ p, accepted (validated_attrs df features am amm) p
               → accepted (validated_attrs df features am' amm') p) as Hacc.
  { intros [i j]. rewrite !accepted_validated. lia. }
  unfold constructed. cbn [neighbors nd Neighborhood_Density]. split.
  - unfold accepted_pairs. cbn [data validated_attrs].
    assert (∀ l : list (nat * nat),
      pair_row (validated_attrs df features am amm) <$> l
      = pair_row (validated_attrs df features am' amm') <$> l) as ->.
    { intros l. by apply list_fmap_ext. }
    apply fmap_sublist. by apply filter_sublist_impl.
  - intros x d d'. rewrite !list_lookup_fmap.
    destruct (seq 0 (len_index df) !! x) as [y|]; simpl; [|done].
    intros [= <-] [= <-]. unfold member_count, accepted_pairs.
    cbn [data validated_attrs]. rewrite !list_filter_filter.
    apply inj_le, sublist_length, filter_sublist_impl.
    intros p [? ?]. auto.
Qed.

(** X8. An empty acceptance window is not rejected by validation: when
    the upper bound [allowed_matches] is below [k - allowed_misses],
    construction succeeds with no neighbour row and every density 0. *)
Theorem empty_window_gives_no_neighbors df features am amm obj :
  __init__ df features am amm = Ok obj →
  default (Z.of_nat (length features)) amm < Z.of_nat (length features) - am →
  neighbors obj = []
  ∧ Neighborhood_Density (nd obj) = replicate (len_index df) 0.
Proof.
  intros Hinit Hwin.
  destruct (__init___Ok_constructed _ _ _ _ _ Hinit) as (-> & _).
  assert (accepted_pairs (validated_attrs df features am amm) = []) as Hnone.
  { unfold accepted_pairs. cbn [data validated_attrs].
    induction (index_pairs (len_index df)) as [|[i j] l IH]; [done|].
    rewrite filter_cons, decide_False; [done|].
    rewrite accepted_validated. lia. }
  unfold constructed. cbn [neighbors nd Neighborhood_Density].
  rewrite Hnone. split; [done|].
  generalize 0%nat at 1. induction (len_index df) as [|n IH]; intros a; [done|].
  simpl. f_equal. apply IH.
Qed.

Lemma length_filter_disjoint {A} (P Q : A → Prop)
    `{∀ x, Decision (P x)} `{∀ x, Decision (Q x)} (l : list A) :
  (∀ x, P x → Q x → False) →
  (length (filter P l) + length (filter Q l) ≤ length l)%nat.
Proof.
  intros Hdis. induction l as [|a l IH]; [done|].
  rewrite !filter_cons.
  destruct (decide (P a)), (decide (Q a)); simpl; [by exfalso; eauto|lia..].
Qed.

(** X9. Missing values count as misses: for an accepted pair the number
    of features with a missing value on either item is at most
    [allowed_misses]. *)
Theorem missing_values_count_as_misses df features am amm obj i j :
  __init__ df features am amm = Ok obj →
  (i, j) ∈ accepted_pairs obj →
  Z.of_nat (length (filter (missing_on df i j) features)) <= am.
Proof.
  intros Hinit Hp.
  destruct (__init___Ok_constructed _ _ _ _ _ Hinit) as (-> & _).
  apply accepted_pairs_spec in Hp as [_ Hacc].
  destruct Hacc as [Hlow _]. unfold matches, matched_names in Hlow.
  simpl in Hlow.
  pose proof (length_filter_disjoint (agree df i j) (missing_on df i j) features)
    as Hdis.
  assert (∀ f, agree df i j f → missing_on df i j f → False) as Hno.
  { intros f (v & Hi & Hj) [Hn|Hn]; congruence. }
  specialize (Hdis Hno). lia.
Qed.

(** *** The text of the matched features *)

Lemma string_app_assoc (a b c : string) : (a +:+ b) +:+ c = a +:+ (b +:+ c).
Proof.
  induction a as [|x a IH]; [done|].
  change (String x ((a +:+ b) +:+ c) = String x (a +:+ (b +:+ c))).
  by rewrite IH.
Qed.

Lemma concat_join2 (sep acc f : string) (names : list string) :
  String.concat sep (join2 sep acc f :: names)
  = String.concat sep (acc :: f :: names).
Proof.
  unfold join2. destruct names as [|g names]; [done|].
  cbn [String.concat]. by rewrite !string_app_assoc.
Qed.

Lemma join_names_concat names : ∀ acc,
  acc ≠ ""%string →
  join_names acc names = String.concat ", " (acc :: names).
Proof.
  induction names as [|f names IH]; intros acc Hacc; [done|].
  cbn [join_names foldl]. unfold join_step at 2.
  rewrite decide_False by done.
  fold (join_names (join2 ", " acc f) names).
  rewrite IH by (by apply join2_nonempty).
  apply concat_join2.
Qed.

(** The text the scan builds is Python's [", ".join(names)] when no name
    is the empty string. *)
Lemma join_names_is_join names :
  Forall (λ f, f ≠ ""%string) names →
  join_names "" names = String.concat ", " names.
Proof.
  destruct names as [|f names]; [done|]. intros Hall.
  apply Forall_cons in Hall as [Hf _].
  cbn [join_names foldl]. unfold join_step at 2. rewrite decide_True by done.
  fold (join_names f names). by apply join_names_concat.
Qed.

(** X10. When no feature name is the empty string, every neighbour row
    holds the comma-separated list (Python's [", ".join]) of the features
    on which its two items have present and equal values, in FeatureSet
    order, and its count is the length of that list. *)
Theorem matched_features_is_the_joined_list df features am amm obj :
  __init__ df features am amm = Ok obj →
  (∀ f, f ∈ features → f ≠ ""%string) →
  neighbors obj
  = (λ p, {| target := cell_of df p.1 "Code";
             neighbor := cell_of df p.2 "Code";
             num_matched_features :=
               Z.of_nat (length (filter (agree df p.1 p.2) features));
             matched_features :=
               String.concat ", " (filter (agree df p.1 p.2) features) |})
    <$> accepted_pairs obj.
Proof.
  intros Hinit Hnames.
  destruct (__init___Ok_constructed _ _ _ _ _ Hinit) as (-> & _).
  unfold constructed. cbn [neighbors self_attrs].
  apply list_fmap_ext. intros _ p _. unfold pair_row, matches, matched_names.
  cbn [data Neighbors.features validated_attrs]. f_equal.
  apply join_names_is_join, Forall_forall.
  intros f Hf. apply list_elem_of_filter in Hf as [_ Hf]. by apply Hnames.
Qed.

(** *** Densities and the mirrored list *)

Lemma count_rows_of_target (self : attrs V) (x : nat) (qs : list (nat * nat)) :
  (∀ i j, (i < len_index (data self))%nat → (j < len_index (data self))%nat →
          cell_of (data self) i "Code" = cell_of (data self) j "Code" → i = j) →
  (x < len_index (data self))%nat →
  Forall (λ p, p.1 ≠ p.2 ∧ (p.1 < len_index (data self))%nat
               ∧ (p.2 < len_index (data self))%nat) qs →
  (length (rows_of_target (cell_of (data self) x "Code") (pair_row self <$> qs))
   + length (rows_of_target (cell_of (data self) x "Code")
               (swap_row <$> (pair_row self <$> qs)))
   = length (filter (λ p, p.1 = x ∨ p.2 = x) qs))%nat.
Proof.
  intros Hinj Hx. unfold rows_of_target.
  induction qs as [|[i j] qs IH]; intros Hqs; [done|].
  apply Forall_cons in Hqs as [(Hij & Hi & Hj) Hqs]. simpl in Hij, Hi, Hj.
  specialize (IH Hqs). rewrite !fmap_cons, !filter_cons. cbn [fst snd].
  cbn [target pair_row swap_row neighbor fst snd].
  destruct (decide (cell_of (data self) i "Code" = cell_of (data self) x "Code"))
    as [Hti|Hti];
  destruct (decide (cell_of (data self) j "Code" = cell_of (data self) x "Code"))
    as [Htj|Htj];
  destruct (decide (i = x ∨ j = x)) as [Hm|Hm]; simpl; try lia.
  - apply Hinj in Hti; [|done..]. apply Hinj in Htj; [|done..]. lia.
  - apply Hinj in Hti; [|done..]. exfalso. apply Hm. by left.
  - apply Hinj in Hti; [|done..]. exfalso. apply Hm. by left.
  - apply Hinj in Htj; [|done..]. exfalso. apply Hm. by right.
  - destruct Hm as [->| ->]; [by destruct Hti|by destruct Htj].
Qed.

(** X11. On a dataset whose [Code] values are pairwise different, the
    density of an item is the number of rows of the mirrored list that
    have the item's [Code] as target. *)
Theorem density_counts_mirrored_rows (Vle : relation V)
    `{Vle_dec : ∀ x y, Decision (Vle x y)} df features am amm obj x :
  __init__ df features am amm = Ok obj →
  (∀ i j, (i < len_index df)%nat → (j < len_index df)%nat →
          cell_of df i "Code" = cell_of df j "Code" → i = j) →
  (x < len_index df)%nat →
  Neighborhood_Density (ND obj) !! x
  = Some (Z.of_nat (length (rows_of_target (cell_of df x "Code")
                              (Neighbors Vle obj true)))).
Proof.
  intros Hinit Hinj Hx.
  destruct (__init___Ok_constructed _ _ _ _ _ Hinit) as (-> & _).
  unfold Neighbors, ND, rows_of_target.
  rewrite (Permutation_length
             (filter_Permutation _ _ _ (_MirrorNeighbors_perm Vle _))).
  rewrite filter_app, length_app.
  unfold constructed. cbn [neighbors nd Neighborhood_Density].
  rewrite list_lookup_fmap, lookup_seq_lt by done. simpl.
  do 2 f_equal. unfold member_count. f_equal.
  pose proof (count_rows_of_target (validated_attrs df features am amm) x
                (accepted_pairs (validated_attrs df features am amm))) as Hcount.
  unfold rows_of_target in Hcount. cbn [data validated_attrs] in Hcount.
  symmetry. apply Hcount; [done..|].
  apply Forall_forall. intros [i j] Hp.
  apply accepted_pairs_spec in Hp as [Hij _]. simpl in *. lia.
Qed.

(** *** Columns the scan does not read *)

Lemma filter_ext_elem {A} (P Q : A → Prop)
    `{∀ x, Decision (P x)} `{∀ x, Decision (Q x)} (l : list A) :
  (∀ x, x ∈ l → (P x ↔ Q x)) → filter P l = filter Q l.
Proof.
  induction l as [|a l IH]; intros Hext; [done|].
  rewrite !filter_cons.
  rewrite IH by (intros x Hx; apply Hext; by right).
  destruct (decide (P a)) as [Hp|Hp].
  - rewrite decide_True; [done|]. apply Hext; [by left|done].
  - rewrite decide_False; [done|]. intros Hq. apply Hp, Hext; [by left|done].
Qed.

(** X12. The result depends on the [Code] column and the feature columns
    only: on a second frame with pairwise distinct labels and as many
    rows, that has these columns when the first has them, with the same
    cells in them (other columns may be added, dropped, reordered or
    changed), construction under the same clock succeeds as well and
    returns the same neighbour list and the same densities. *)
Theorem other_columns_are_ignored df df' features am amm obj :
  __init__ df features am amm = Ok obj →
  NoDup (columns df') →
  len_index df' = len_index df →
  (∀ label, label = "Code"%string ∨ label ∈ features →
            (label ∈ columns df → label ∈ columns df')
            ∧ ∀ i, cell_of df' i label = cell_of df i label) →
  ∃ obj', __init__ df' features am amm = Ok obj'
          ∧ neighbors obj' = neighbors obj
          ∧ Neighborhood_Density (nd obj') = Neighborhood_Density (nd obj).
Proof.
  intros Hinit _ Hlen Hsame.
  pose proof (__init___Ok_clock _ _ _ _ _ Hinit) as Hadv.
  destruct (__init___Ok_constructed _ _ _ _ _ Hinit) as (-> & Hk & Hv & Hc).
  assert (∀ i j, filter (agree df' i j) features = filter (agree df i j) features)
    as Hnames.
  { intros i j. apply filter_ext_elem. intros f Hf. unfold agree.
    destruct (Hsame f (or_intror Hf)) as [_ Hcells]. by rewrite !Hcells. }
  assert (∀ p, pair_row (validated_attrs df' features am amm) p
               = pair_row (validated_attrs df features am amm) p) as Hrow.
  { intros p. unfold pair_row, matches, matched_names.
    cbn [data Neighbors.features validated_attrs].
    destruct (Hsame "Code"%string (or_introl eq_refl)) as [_ Hcells].
    by rewrite !Hcells, Hnames. }
  assert (accepted_pairs (validated_attrs df' features am amm)
          = accepted_pairs (validated_attrs df features am amm)) as Hpairs.
  { unfold accepted_pairs. cbn [data validated_attrs]. rewrite Hlen.
    apply list_filter_iff. intros [i j].
    by rewrite !accepted_validated, Hnames. }
  exists (constructed df' features am amm). split_and!.
  - apply __init___constructed; [|done| |done].
    + intros f Hf. by apply (Hsame f (or_intror Hf)), Hk.
    + destruct Hc as [Hc|Hc]; [left|right; lia].
      by apply (Hsame "Code"%string (or_introl eq_refl)).
  - unfold constructed. cbn [neighbors]. rewrite Hpairs.
    by apply list_fmap_ext.
  - unfold constructed. cbn [nd Neighborhood_Density]. by rewrite Hpairs, Hlen.
Qed.

(** *** When every pair matches *)

Lemma filter_all_id {A} (P : A → Prop) `{∀ x, Decision (P x)} (l : list A) :
  Forall P l → filter P l = l.
Proof.
  induction 1 as [|a l Ha _ IH]; [done|].
  by rewrite filter_cons, decide_True, IH.
Qed.

Lemma sum_le_bound (l : list Z) c :
  Forall (λ d, d <= c) l → sum l <= c * Z.of_nat (length l).
Proof. induction 1 as [|a l Ha _ IH]; simpl; lia. Qed.

Lemma all_at_bound (l : list Z) c :
  Forall (λ d, d <= c) l → sum l = c * Z.of_nat (length l) →
  l = replicate (length l) c.
Proof.
  induction 1 as [|a l Ha Hl IH]; intros Hsum; [done|].
  pose proof (sum_le_bound l c Hl). simpl in *.
  assert (a = c) as -> by lia. f_equal. apply IH. lia.
Qed.

(** X13. The bounds are reached: when every two items have present and
    equal values on every feature and the upper bound on matches is [k],
    every pair is a neighbour pair; the list has [n (n - 1) / 2] rows and
    every density is [n - 1]. *)
Theorem all_items_alike df features am amm obj :
  __init__ df features am amm = Ok obj →
  default (Z.of_nat (length features)) amm = Z.of_nat (length features) →
  (∀ i j f, (i < j < len_index df)%nat → f ∈ features → agree df i j f) →
  (2 * length (neighbors obj) = len_index df * (len_index df - 1))%nat
  ∧ Neighborhood_Density (nd obj)
    = replicate (len_index df) (Z.of_nat (len_index df) - 1).
Proof.
  intros Hinit Hupper Hall.
  destruct (__init___Ok_constructed _ _ _ _ _ Hinit)
    as (-> & Hk & [Ham _] & Hc).
  set (self := validated_attrs df features am amm).
  assert (accepted_pairs self = index_pairs (len_index df)) as Hpairs.
  { unfold accepted_pairs. apply filter_all_id, Forall_forall.
    intros [i j] Hp. apply elem_of_index_pairs in Hp.
    apply accepted_validated. rewrite Hupper.
    assert (filter (agree df i j) features = features) as ->.
    { apply filter_all_id, Forall_forall. intros f Hf. by apply Hall. }
    lia. }
  unfold constructed. cbn [neighbors nd Neighborhood_Density]. fold self.
  rewrite Hpairs, length_fmap. split; [apply length_index_pairs|].
  set (n := len_index df).
  set (l := member_count (index_pairs n) <$> seq 0 n).
  assert (length l = n) as Hlen by (unfold l; by rewrite length_fmap, length_seq).
  rewrite <- Hlen at 1. apply all_at_bound.
  - unfold l. apply Forall_fmap, Forall_forall. intros x Hx.
    apply elem_of_seq in Hx. simpl. apply member_count_index_pairs. lia.
  - unfold l. rewrite <- foldl_bump_replicate.
    2:{ apply Forall_forall. intros [i j] Hp.
        apply elem_of_index_pairs in Hp. simpl. lia. }
    rewrite sum_foldl_bump, sum_replicate.
    2:{ apply Forall_forall. intros [i j] Hp.
        apply elem_of_index_pairs in Hp. rewrite length_replicate. simpl. lia. }
    rewrite foldl_bump_length, length_replicate.
    pose proof (length_index_pairs n). nia.
Qed.

End further.

(** *** The feature matcher outside its domain *)

Lemma iloc_out_of_range {V : Type} (df : DataFrame V) i c :
  (len_index df ≤ i)%nat → iloc df i c = Raise IndexError.
Proof.
  intros Hi. unfold iloc. by rewrite (lookup_ge_None_2 (rows df) i).
Qed.

(** X15. On a frame with pairwise distinct labels: called for a feature
    that is not a column, [_MatchFeature] raises [KeyError] for that name
    whatever the indices are; for a column and a first index past the
    last row it raises [IndexError]; for a second index past the last row
    it raises [IndexError] only when the first item has a present value,
    and returns [False] when that value is missing. *)
Theorem match_feature_outside_domain {V : Type} `{Veq : EqDecision V}
    (self : attrs V) (i j : nat) (feature : string) :
  NoDup (columns (data self)) →
  ((feature ∉ columns (data self)) →
   _MatchFeature self i j feature = Raise (KeyError feature))
  ∧ (feature ∈ columns (data self) → (len_index (data self) ≤ i)%nat →
     _MatchFeature self i j feature = Raise IndexError)
  ∧ (feature ∈ columns (data self) →
     (i < len_index (data self))%nat → (len_index (data self) ≤ j)%nat →
     _MatchFeature self i j feature
     = if notna (cell_of (data self) i feature)
       then Raise IndexError else Ok false).
Proof.
  intros _. split_and!.
  - intros Hf. unfold _MatchFeature. by rewrite get_loc_absent.
  - intros Hf Hi. destruct (lookup_cell _ _ Hf) as (p & Hp & _).
    unfold _MatchFeature. rewrite Hp, bind_Ok.
    by rewrite iloc_out_of_range.
  - intros Hf Hi Hj. destruct (lookup_cell _ _ Hf) as (p & Hp & Hcell).
    unfold _MatchFeature, mbind, result_bind.
    rewrite Hp, (Hcell i Hi), (iloc_out_of_range _ j p Hj).
    by destruct (cell_of (data self) i feature).
Qed.

(** *** The progress log *)

Lemma progress_step_prefix total m :
  let st := foldl (progress_step total) (0%nat, []) (seq 0 m) in
  st.1 = (if decide (m < 10)%nat then 0 else 10 * (m / 10) - 1)%nat
  ∧ filter is_progress st.2 = report_of_ten total <$> seq 0 (m / 10).
Proof.
  induction m as [|m IH].
  { simpl. done. }
  cbv zeta in IH |- *.
  rewrite seq_S, foldl_app. cbn [foldl Nat.add].
  destruct (foldl (progress_step total) (0%nat, []) (seq 0 m)) as [start log].
  cbn [fst snd] in IH. destruct IH as (Hstart & Hreports).
  pose proof (Nat.div_mod_eq m 10) as Hdm.
  pose proof (Nat.mod_upper_bound m 10 ltac:(lia)) as Hmb.
  pose proof (Nat.div_mod_eq (S m) 10) as Hdm'.
  pose proof (Nat.mod_upper_bound (S m) 10 ltac:(lia)) as Hmb'.
  unfold progress_step.
  destruct (decide (m = 0%nat)) as [->|Hm0].
  { cbn [fst snd]. rewrite filter_app, Hreports. split; [done|].
    change (filter is_progress [Info_starting_word (0 + 1) total]) with
      (@nil log_record).
    by rewrite app_nil_r. }
  replace (m + 1)%nat with (S m) by lia.
  destruct (decide ((S m mod 10)%nat = 0%nat)) as [Hten|Hten]; cbn [fst snd].
  - rewrite filter_app, Hreports. split.
    + destruct (decide (S m < 10)%nat); lia.
    + change (filter is_progress
                [Debug_etc m; Debug_etc_formatted;
                 Info_progress m (Z.of_nat m - Z.of_nat start)
                   (Z.of_nat total - Z.of_nat m);
                 Info_starting_word (S m) total])
        with [Info_progress m (Z.of_nat m - Z.of_nat start)
                (Z.of_nat total - Z.of_nat m)].
      replace (S m / 10)%nat with (S (m / 10)) by lia.
      rewrite seq_S, fmap_app. cbn [fmap list_fmap Nat.add]. f_equal.
      unfold report_of_ten.
      replace (10 * (m / 10) + 9)%nat with m by lia.
      do 2 f_equal. rewrite Hstart.
      destruct (decide (m < 10)%nat), (decide (m / 10 = 0)%nat); lia.
  - rewrite filter_app, Hreports. split.
    + rewrite Hstart.
      destruct (decide (m < 10)%nat), (decide (S m < 10)%nat); lia.
    + change (filter is_progress [Debug_starting_word (S m) total])
        with (@nil log_record).
      rewrite app_nil_r. f_equal. f_equal. lia.
Qed.

(** X14. In a scan over [n] items that completes, the progress reports
    logged are, in order, one for each full ten of items and no other:
    the [q]-th is written at the item at position [10 q + 10], its rate
    is computed from 9 items for the first report and from 10 for the
    later ones, and its remaining time from [n - (10 q + 9)] items; both
    counts are positive. *)
Theorem progress_reports_every_ten_items (n : nat) :
  filter is_progress (progress_log n) = report_of_ten n <$> seq 0 (n / 10)
  ∧ ∀ q, (q < n / 10)%nat →
      ∃ since remaining,
        report_of_ten n q = Info_progress (10 * q + 9) since remaining
        ∧ (10 * q + 9 < n)%nat ∧ since > 0 ∧ remaining > 0.
Proof.
  pose proof (progress_step_prefix n n) as (_ & Hreports).
  unfold progress_log, range. rewrite Nat.sub_0_r. split; [done|].
  intros q Hq. eexists _, _. split; [reflexivity|].
  pose proof (Nat.div_mod_eq n 10) as Hdm.
  pose proof (Nat.mod_upper_bound n 10 ltac:(lia)) as Hmb.
  split_and!; [lia| |lia].
  destruct (decide (q = 0%nat)); lia.
Qed.

(** ** The claims on the scenarios of the specification

    Where no clock is named, the scenarios run under [ticking_clock]. *)

#[local] Existing Instance ticking_clock.

Lemma __init___scenario : __init__ scenario F123 0 None = Ok scenario_obj.
Proof. vm_compute. reflexivity. Qed.

(** Second scenario: item D misses F3, so A-D match on two features only
    and are rejected under the defaults. *)
Example scenario_missing_rejected :
  (neighbors <$> (match __init__ scenario_missing F123 0 None with
                  | Ok obj => Some obj
                  | Raise _ => None
                  end)) = Some []
  ∧ _MatchFeature (validated_attrs scenario_missing F123 0 None) 0 1 "F3"
    = Ok false
  ∧ matches (validated_attrs scenario_missing F123 0 None) 0 1 = 2.
Proof. split_and!; vm_compute; reflexivity. Qed.

Lemma features_known_scenario : features_known scenario F123.
Proof. apply (bool_decide_unpack _). vm_compute. exact I. Qed.

Lemma NoDup_columns_scenario : NoDup (columns scenario).
Proof. apply (bool_decide_unpack _). vm_compute. exact I. Qed.

Lemma match_feature_present_and_equal_witness :
  ∃ p ri rj b,
    columns scenario !! p = Some "F3"%string
    ∧ rows scenario !! 0%nat = Some ri
    ∧ rows scenario !! 2%nat = Some rj
    ∧ _MatchFeature (validated_attrs scenario F123 0 None) 0 2 "F3" = Ok b
    ∧ (b = true ↔ ∃ v, ri !! p = Some (Some v) ∧ rj !! p = Some (Some v))
    ∧ ((∀ v, ri !! p ≠ Some (Some v)) ∨ (∀ v, rj !! p ≠ Some (Some v))
       → b = false).
Proof.
  apply (match_feature_present_and_equal
           (validated_attrs scenario F123 0 None) 0 2 "F3").
  - exact NoDup_columns_scenario.
  - apply (bool_decide_unpack _). vm_compute. exact I.
  - apply (bool_decide_unpack _). vm_compute. exact I.
  - vm_compute. lia.
  - vm_compute. lia.
Defined.

Lemma neighbor_iff_within_thresholds_witness :
  __init__ scenario F123 0 None = Ok scenario_obj
  ∧ neighbors scenario_obj = pair_row scenario_obj <$> accepted_pairs scenario_obj
  ∧ Neighborhood_Density (nd scenario_obj)
    = member_count (accepted_pairs scenario_obj) <$> seq 0 3.
Proof.
  pose proof __init___scenario as Hinit.
  split; [exact Hinit|].
  destruct (neighbor_iff_within_thresholds scenario F123 0 None scenario_obj Hinit)
    as (Hrows & Hdensity & _).
  split; [exact Hrows|exact Hdensity].
Defined.

Lemma density_sum_and_bounds_witness :
  __init__ scenario F123 0 None = Ok scenario_obj
  ∧ sum (Neighborhood_Density (nd scenario_obj))
    = 2 * Z.of_nat (length (neighbors scenario_obj))
  ∧ Forall (λ d, 0 <= d <= Z.of_nat (len_index scenario) - 1)
      (Neighborhood_Density (nd scenario_obj)).
Proof.
  pose proof __init___scenario as Hinit.
  split; [exact Hinit|].
  destruct (density_sum_and_bounds scenario F123 0 None scenario_obj Hinit)
    as (Hsum & _ & Hbounds & _).
  split; [exact Hsum|exact Hbounds].
Defined.

Lemma scan_order_and_coverage_witness :
  __init__ scenario F123 0 None = Ok scenario_obj
  ∧ neighbors scenario_obj
    = pair_row scenario_obj
      <$> filter (accepted scenario_obj) (index_pairs (len_index scenario)).
Proof.
  pose proof __init___scenario as Hinit.
  split; [exact Hinit|].
  exact (proj1 (scan_order_and_coverage scenario F123 0 None scenario_obj Hinit)).
Defined.

(** The failing input: the first scenario, validated, under a clock
    that does not advance; the scan completes and construction raises. *)
Lemma scan_raises_on_stalled_clock :
  (∀ st, length (nd_list st) = len_index scenario →
         for_ (range 0 (len_index scenario))
              (item_step (validated_attrs scenario F123 0 None)) st
         = Ok (foldl (scan_step (validated_attrs scenario F123 0 None)) st
                 (index_pairs (len_index scenario))))
  ∧ __init__ (clock := stalled_clock) scenario F123 0 None
    = Raise ZeroDivisionError.
Proof.
  destruct (scan_completes_then_divides_by_elapsed_time
              (clock := stalled_clock) scenario F123 0 None)
    as (Hloops & _ & Hraise).
  - exact NoDup_columns_scenario.
  - exact features_known_scenario.
  - apply (bool_decide_unpack _). vm_compute. exact I.
  - apply (bool_decide_unpack _). vm_compute. exact I.
  - split; [exact Hloops|]. apply Hraise. vm_compute. discriminate.
Defined.

Lemma threshold_error_iff_witness :
  features_known scenario F123
  ∧ ((∃ e, InvalidThresholdError e ∧ __init__ scenario F123 3 None = Raise e)
     ↔ (3 < 0 ∨ 3 > Z.of_nat (length F123) - 1
        ∨ ∃ m, None = Some m ∧ (m < 1 ∨ m > Z.of_nat (length F123)))).
Proof.
  pose proof features_known_scenario as Hk.
  split; [exact Hk|].
  exact (proj1 (threshold_error_iff scenario F123 3 None Hk)).
Defined.

(** The claim fails when a feature is unknown as well: the thresholds are
    out of range and the error raised is the unknown-feature one. *)
Lemma threshold_error_hidden_by_unknown_feature :
  1 > Z.of_nat (length ["F4"]) - 1
  ∧ __init__ scenario ["F4"] 1 None
    = Raise (ValueError (Msg_features_not_in_data ["F4"]))
  ∧ ¬ InvalidThresholdError (ValueError (Msg_features_not_in_data ["F4"])).
Proof.
  split_and!.
  - simpl. lia.
  - vm_compute. reflexivity.
  - simpl. tauto.
Qed.

Lemma neighbor_rows_match_a_feature_witness :
  __init__ scenario F123 0 None = Ok scenario_obj
  ∧ ∀ r, r ∈ neighbors scenario_obj →
         1 <= num_matched_features r
         ∧ ((∀ f, f ∈ F123 → f ≠ ""%string) → matched_features r ≠ ""%string).
Proof.
  pose proof __init___scenario as Hinit.
  split; [exact Hinit|].
  exact (proj2 (neighbor_rows_match_a_feature scenario F123 0 None
                  scenario_obj Hinit)).
Defined.

(** The claim fails for a feature column labelled by the empty string:
    the emitted row has matched on one feature and its text is empty. *)
Lemma empty_matched_features_text :
  __init__ empty_label_frame [empty_label] 0 None = Ok empty_label_obj
  ∧ ∃ r, r ∈ neighbors empty_label_obj
         ∧ num_matched_features r = 1
         ∧ matched_features r = ""%string.
Proof.
  split; [vm_compute; reflexivity|].
  eexists. split; [left|]. done.
Qed.

Lemma mirror_both_directions_witness :
  Sorted (by_target_neighbor string_le) (_MirrorNeighbors string_le scenario_obj)
  ∧ _MirrorNeighbors string_le scenario_obj
    ≡ₚ neighbors scenario_obj ++ (swap_row <$> neighbors scenario_obj).
Proof.
  destruct (mirror_both_directions string_le scenario_obj)
    as (_ & Hperm & _ & Hsorted & _).
  split; [exact Hsorted|exact Hperm].
Defined.

Lemma accessor_mirror_flag_witness :
  __init__ scenario F123 0 None = Ok scenario_obj
  ∧ Neighbors string_le scenario_obj false
    = pair_row scenario_obj <$> accepted_pairs scenario_obj
  ∧ Neighbors string_le scenario_obj true = _MirrorNeighbors string_le scenario_obj.
Proof.
  pose proof __init___scenario as Hinit.
  split; [exact Hinit|].
  destruct (accessor_mirror_flag string_le scenario F123 0 None scenario_obj Hinit)
    as (Hdefault & Hplain & _).
  split; [exact Hplain|exact Hdefault].
Defined.

(** The claim fails on the first scenario: reading the accessor, with no
    mirroring asked for, yields both directions of the accepted pair. *)
Lemma accessor_mirrors_unasked :
  __init__ scenario F123 0 None = Ok scenario_obj
  ∧ neighbors scenario_obj
    = [ {| target := Some "A"; neighbor := Some "B";
           num_matched_features := 3; matched_features := "F1, F2, F3" |} ]
  ∧ Neighbors_getattr string_le scenario_obj
    = [ {| target := Some "A"; neighbor := Some "B";
           num_matched_features := 3; matched_features := "F1, F2, F3" |};
        {| target := Some "B"; neighbor := Some "A";
           num_matched_features := 3; matched_features := "F1, F2, F3" |} ].
Proof.
  split_and!; vm_compute; reflexivity.
Qed.

(** ** The further properties on the scenarios *)

Lemma construction_outcome_witness :
  __init__ scenario F123 0 None
  = if decide (("Code" ∉ columns scenario) ∧ (0 < len_index scenario)%nat)
    then Raise (KeyError "Code")
    else if decide clock_advanced
         then Ok (constructed scenario F123 0 None)
         else Raise ZeroDivisionError.
Proof.
  apply (construction_outcome scenario F123 0 None).
  - exact NoDup_columns_scenario.
  - exact features_known_scenario.
  - apply (bool_decide_unpack _). vm_compute. exact I.
Defined.

Lemma fewer_than_two_items_witness :
  neighbors (constructed single_item F123 0 None) = []
  ∧ Neighbors string_le (constructed single_item F123 0 None) true = []
  ∧ Neighborhood_Density (ND (constructed single_item F123 0 None))
    = replicate (len_index single_item) 0.
Proof.
  apply (fewer_than_two_items string_le single_item F123 0 None).
  - vm_compute. reflexivity.
  - vm_compute. lia.
Defined.

Lemma neighbor_rows_bound_witness :
  (2 * length (neighbors scenario_obj)
   ≤ len_index scenario * (len_index scenario - 1))%nat.
Proof.
  apply (neighbor_rows_bound scenario F123 0 None scenario_obj).
  exact __init___scenario.
Defined.

Lemma comparison_is_symmetric_witness :
  (∀ f, f ∈ F123 →
        _MatchFeature (validated_attrs scenario F123 0 None) 0 2 f
        = _MatchFeature (validated_attrs scenario F123 0 None) 2 0 f)
  ∧ for_ (range 0 (length F123))
         (feature_step (validated_attrs scenario F123 0 None) 0 2) (0, ""%string)
    = for_ (range 0 (length F123))
           (feature_step (validated_attrs scenario F123 0 None) 2 0) (0, ""%string)
  ∧ (accepted (validated_attrs scenario F123 0 None) (0%nat, 2%nat)
     ↔ accepted (validated_attrs scenario F123 0 None) (2%nat, 0%nat)).
Proof.
  apply (comparison_is_symmetric (validated_attrs scenario F123 0 None) 0 2).
  - exact features_known_scenario.
  - apply (bool_decide_unpack _). vm_compute. exact I.
  - vm_compute. lia.
  - vm_compute. lia.
Defined.


Lemma wider_thresholds_add_neighbors_witness :
  neighbors scenario_obj `sublist_of` neighbors (constructed scenario F123 1 None)
  ∧ ∀ x d d', Neighborhood_Density (nd scenario_obj) !! x = Some d →
              Neighborhood_Density (nd (constructed scenario F123 1 None)) !! x
              = Some d' → d <= d'.
Proof.
  apply (wider_thresholds_add_neighbors scenario F123 0 1 None None).
  - exact __init___scenario.
  - vm_compute. reflexivity.
  - lia.
  - simpl. lia.
Defined.

Lemma empty_window_gives_no_neighbors_witness :
  neighbors (constructed scenario F123 0 (Some 2)) = []
  ∧ Neighborhood_Density (nd (constructed scenario F123 0 (Some 2)))
    = replicate (len_index scenario) 0.
Proof.
  apply (empty_window_gives_no_neighbors scenario F123 0 (Some 2)).
  - vm_compute. reflexivity.
  - simpl. lia.
Defined.

Lemma missing_values_count_as_misses_witness :
  Z.of_nat (length (filter (missing_on scenario_missing 0 1) F123)) <= 1.
Proof.
  apply (missing_values_count_as_misses scenario_missing F123 1 None
           (constructed scenario_missing F123 1 None) 0 1).
  - vm_compute. reflexivity.
  - apply (bool_decide_unpack _). vm_compute. exact I.
Defined.

Lemma matched_features_is_the_joined_list_witness :
  neighbors scenario_obj
  = (λ p, {| target := cell_of scenario p.1 "Code";
             neighbor := cell_of scenario p.2 "Code";
             num_matched_features :=
               Z.of_nat (length (filter (agree scenario p.1 p.2) F123));
             matched_features :=
               String.concat ", " (filter (agree scenario p.1 p.2) F123) |})
    <$> accepted_pairs scenario_obj.
Proof.
  apply (matched_features_is_the_joined_list scenario F123 0 None scenario_obj).
  - exact __init___scenario.
  - apply Forall_forall. apply (bool_decide_unpack _). vm_compute. exact I.
Defined.

Lemma scenario_codes_differ i j :
  (i < len_index scenario)%nat → (j < len_index scenario)%nat →
  cell_of scenario i "Code" = cell_of scenario j "Code" → i = j.
Proof.
  intros Hi Hj. unfold len_index in Hi, Hj. simpl in Hi, Hj.
  destruct i as [|[|[|i]]]; [..|lia];
    (destruct j as [|[|[|j]]]; [..|lia]); vm_compute; congruence.
Qed.

Lemma density_counts_mirrored_rows_witness :
  Neighborhood_Density (ND scenario_obj) !! 0%nat
  = Some (Z.of_nat (length (rows_of_target (cell_of scenario 0 "Code")
                              (Neighbors string_le scenario_obj true)))).
Proof.
  apply (density_counts_mirrored_rows string_le scenario F123 0 None).
  - exact __init___scenario.
  - exact scenario_codes_differ.
  - vm_compute. lia.
Defined.

Lemma scenario_extra_same_cells label :
  label = "Code"%string ∨ label ∈ F123 →
  (label ∈ columns scenario → label ∈ columns scenario_extra)
  ∧ ∀ i, cell_of scenario_extra i label = cell_of scenario i label.
Proof.
  intros Hlabel.
  assert (label ∈ ["Code"; "F1"; "F2"; "F3"]) as Hin.
  { destruct Hlabel as [->|Hl]; [by left|by right]. }
  repeat (apply elem_of_cons in Hin as [->|Hin]); [..|by inv Hin];
    (split; [intros _; apply (bool_decide_unpack _); vm_compute; exact I|];
     intros [|[|[|i]]]; reflexivity).
Qed.

Lemma other_columns_are_ignored_witness :
  ∃ obj', __init__ scenario_extra F123 0 None = Ok obj'
          ∧ neighbors obj' = neighbors scenario_obj
          ∧ Neighborhood_Density (nd obj') = Neighborhood_Density (nd scenario_obj).
Proof.
  apply (other_columns_are_ignored scenario scenario_extra F123 0 None).
  - exact __init___scenario.
  - apply (bool_decide_unpack _). vm_compute. exact I.
  - reflexivity.
  - exact scenario_extra_same_cells.
Defined.

Lemma scenario_alike_agree i j f :
  (i < j < len_index scenario_alike)%nat → f ∈ F123 →
  agree scenario_alike i j f.
Proof.
  intros Hij. unfold len_index in Hij. simpl in Hij.
  assert (i = 0%nat ∧ j = 1%nat) as [-> ->] by lia.
  revert f. apply Forall_forall.
  apply (bool_decide_unpack _). vm_compute. exact I.
Qed.

Lemma all_items_alike_witness :
  (2 * length (neighbors (constructed scenario_alike F123 0 None))
   = len_index scenario_alike * (len_index scenario_alike - 1))%nat
  ∧ Neighborhood_Density (nd (constructed scenario_alike F123 0 None))
    = replicate (len_index scenario_alike)
        (Z.of_nat (len_index scenario_alike) - 1).
Proof.
  apply (all_items_alike scenario_alike F123 0 None).
  - vm_compute. reflexivity.
  - reflexivity.
  - exact scenario_alike_agree.
Defined.

Lemma match_feature_outside_domain_witness :
  _MatchFeature (validated_attrs scenario_missing F123 0 None) 1 7 "F3"
  = (if notna (cell_of scenario_missing 1 "F3")
     then Raise IndexError else Ok false)
  ∧ _MatchFeature (validated_attrs scenario_missing F123 0 None) 0 7 "F9"
    = Raise (KeyError "F9").
Proof.
  destruct (match_feature_outside_domain
              (validated_attrs scenario_missing F123 0 None) 1 7 "F3")
    as (_ & _ & Hsecond).
  { apply (bool_decide_unpack _). vm_compute. exact I. }
  destruct (match_feature_outside_domain
              (validated_attrs scenario_missing F123 0 None) 0 7 "F9")
    as (Habsent & _).
  { apply (bool_decide_unpack _). vm_compute. exact I. }
  split.
  - apply Hsecond.
    + apply (bool_decide_unpack _). vm_compute. exact I.
    + vm_compute. lia.
    + vm_compute. lia.
  - apply Habsent. apply (bool_decide_unpack _). vm_compute. exact I.
Defined.

End Neighbors.
